(** * Rate queries of the project viewer (internal/queries/rate.go)

    The Go package builds two analytical SQL statements as plain text
    (a trade-volume rate and an order-book mid-price rate) and runs
    the order-book one against a warehouse client, draining the row
    iterator into a slice.

    The definitions come first:
    - [Fmt]: the pieces of [fmt.Sprintf] the source relies on;
    - [Sql]: a small syntax for the conditions, arithmetic and CASE
      expressions that occur in the generated text, with a printer
      and an evaluator, so that statements about what a query selects
      are made on a term whose printed form is the generated text;
    - [Queries]: the functions of rate.go, embedded line by line, the
      rows their SQL ranges over, and the executor;
    - the assets, rows and warehouses of the worked examples.

    The results follow: facts on strings, the printed form of each
    SQL term, how the conditions evaluate, then the properties of the
    builders and of the executor. *)

From Stdlib Require Import String Ascii List Bool ZArith QArith.
From Stdlib Require Import DecimalString Qfield.
From Stdlib Require Import Sorted Permutation.
Import ListNotations.

Local Open Scope string_scope.

(** ** Strings and formatting *)

Module Fmt.

(** The double-quote character (code 34), escaped in the Go literals. *)
Definition dq : string :=
  String (Ascii false true false false false true false false) EmptyString.

(** The line feed (code 10), the escape n of the Go literals. *)
Definition nl : string :=
  String (Ascii false true false true false false false false) EmptyString.

(** The verb %s between two double quotes: the argument, unescaped. *)
Definition quoted (s : string) : string := dq ++ s ++ dq.

(** [%d] applied to an integer. *)
Definition fmt_d (n : Z) : string := NilZero.string_of_int (Z.to_int n).

(** [contains s t]: the text [t] occurs in [s]. *)
Definition contains (s t : string) : Prop :=
  exists pre post, s = pre ++ t ++ post.

(** [ends_with s t]: the text [s] finishes with [t]. *)
Definition ends_with (s t : string) : Prop :=
  exists pre, s = pre ++ t.

(** [starts_with s t]: the text [s] opens with [t]. *)
Definition starts_with (s t : string) : Prop :=
  exists post, s = t ++ post.

(** Number of positions of [hay] at which [needle] starts. *)
Fixpoint occurrences (needle hay : string) : nat :=
  match hay with
  | EmptyString => if String.prefix needle "" then 1 else 0
  | String _ rest =>
      ((if String.prefix needle hay then 1 else 0)
       + occurrences needle rest)%nat
  end.

End Fmt.

Import Fmt.

(** ** A fragment of SQL: conditions, arithmetic, CASE *)

Module Sql.

(** Boolean conditions over text columns. *)
Inductive cond : Type :=
| CEq (col lit : string)   (* col = quoted literal *)
| CAnd (a b : cond)        (* a AND b *)
| COr (a b : cond)         (* a OR b *)
| CParen (a : cond).       (* (a) *)

Fixpoint render_cond (c : cond) : string :=
  match c with
  | CEq col lit => col ++ "=" ++ quoted lit
  | CAnd a b => render_cond a ++ " AND " ++ render_cond b
  | COr a b => render_cond a ++ " OR " ++ render_cond b
  | CParen a => "(" ++ render_cond a ++ ")"
  end.

(** A row gives every text column a value. *)
Fixpoint eval_cond (row : string -> string) (c : cond) : bool :=
  match c with
  | CEq col lit => (row col =? lit)%string
  | CAnd a b => eval_cond row a && eval_cond row b
  | COr a b => eval_cond row a || eval_cond row b
  | CParen a => eval_cond row a
  end.

(** Numeric expressions.  A named operand stands for an aggregate or
    an array access of the row, printed as it is. *)
Inductive expr : Type :=
| EVar (name : string)
| EInt (n : Z)
| EAdd (a b : expr)
| EDiv (a b : expr)
| EParen (a : expr).

Fixpoint render_expr (e : expr) : string :=
  match e with
  | EVar name => name
  | EInt n => fmt_d n
  | EAdd a b => render_expr a ++ "+" ++ render_expr b
  | EDiv a b => render_expr a ++ "/" ++ render_expr b
  | EParen a => "(" ++ render_expr a ++ ")"
  end.

(** A numeric value is a rational or NULL ([None]).  NULL propagates
    through the operators.  A division by zero makes the warehouse
    reject the statement; it is recorded here as the absence of a
    value, and the results below that speak of a quotient assume a
    non-zero divisor. *)
Definition value : Type := option Q.

Definition v_add (x y : value) : value :=
  match x, y with
  | Some a, Some b => Some (a + b)%Q
  | _, _ => None
  end.

Definition v_div (x y : value) : value :=
  match x, y with
  | Some a, Some b => if Qeq_bool b 0 then None else Some (a / b)%Q
  | _, _ => None
  end.

Fixpoint eval_expr (num : string -> value) (e : expr) : value :=
  match e with
  | EVar name => num name
  | EInt n => Some (inject_Z n)
  | EAdd a b => v_add (eval_expr num a) (eval_expr num b)
  | EDiv a b => v_div (eval_expr num a) (eval_expr num b)
  | EParen a => eval_expr num a
  end.

(** CASE WHEN c1 THEN e1 ... [ELSE e] END *)
Record case_expr : Type := Case {
  whens : list (cond * expr);
  otherwise : option expr
}.

Fixpoint render_whens (ws : list (cond * expr)) : string :=
  match ws with
  | [] => ""
  | (c, e) :: ws' =>
      " WHEN " ++ render_cond c ++ " THEN " ++ render_expr e
      ++ render_whens ws'
  end.

Definition render_case (k : case_expr) : string :=
  "CASE" ++ render_whens (whens k)
  ++ match otherwise k with
     | Some e => " ELSE " ++ render_expr e
     | None => ""
     end
  ++ " END".

(** The branch a row selects: the first WHEN whose condition holds,
    the ELSE expression if none does, nothing when there is no ELSE. *)
Fixpoint select_when (row : string -> string) (ws : list (cond * expr))
  : option expr :=
  match ws with
  | [] => None
  | (c, e) :: ws' => if eval_cond row c then Some e else select_when row ws'
  end.

Definition select_branch (row : string -> string) (k : case_expr)
  : option expr :=
  match select_when row (whens k) with
  | Some e => Some e
  | None => otherwise k
  end.

Definition eval_case (row : string -> string) (num : string -> value)
  (k : case_expr) : value :=
  match select_branch row k with
  | Some e => eval_expr num e
  | None => None
  end.

End Sql.

Import Sql.

(** ** The query builders and the executor of rate.go *)

Module Queries.

(** Modelled from the spec: the type [Asset] is declared outside
    rate.go; the source reads its two text fields [Code] and [Issuer],
    and the spec describes it as a code and an issuer compared
    structurally. *)
Record Asset : Type := mkAsset { Code : string; Issuer : string }.

Definition asset_eqb (a b : Asset) : bool :=
  (Code a =? Code b)%string && (Issuer a =? Issuer b)%string.

Section Builders.

(** [getTitleField] and [queryLimit] belong to the package but not to
    rate.go: the builders are stated for any title formatter and any
    row limit. *)
Variable getTitleField : string -> string -> string -> string.
Variable queryLimit : Z.

(** *** createRateTradeQuery *)
Definition baseAssetMatch (source dest : Asset) : string :=
  "((B.asset_code=" ++ quoted (Code source)
  ++ " AND B.asset_issuer=" ++ quoted (Issuer source)
  ++ ") OR (C.asset_code=" ++ quoted (Code dest)
  ++ " AND C.asset_issuer=" ++ quoted (Issuer dest) ++ "))".

Definition baseAssetSelect : string :=
  "SUM(T.counter_amount)/SUM(T.base_amount)".

Definition counterAssetMatch (source dest : Asset) : string :=
  "((C.asset_code=" ++ quoted (Code source)
  ++ " AND C.asset_issuer=" ++ quoted (Issuer source)
  ++ ") OR (B.asset_code=" ++ quoted (Code dest)
  ++ " AND B.asset_issuer=" ++ quoted (Issuer dest) ++ "))".

Definition counterAssetSelect : string :=
  "SUM(T.base_amount)/SUM(T.counter_amount)".

(** The clause both builders append when both bounds are given. *)
Definition closedAtBetween (startUnixTimestamp endUnixTimestamp : string)
  : string :=
  " AND L.closed_at BETWEEN TIMESTAMP_SECONDS(" ++ startUnixTimestamp
  ++ ") AND TIMESTAMP_SECONDS(" ++ endUnixTimestamp ++ ")".

Definition createRateTradeQuery (source dest : Asset)
  (startUnixTimestamp endUnixTimestamp aggregateBy : string) : string :=
  let titleField := getTitleField "L.sequence" "L.closed_at" aggregateBy in
  let query :=
    "SELECT " ++ titleField ++ ", CASE WHEN " ++ baseAssetMatch source dest
    ++ " THEN " ++ baseAssetSelect ++ " WHEN "
    ++ counterAssetMatch source dest ++ " THEN " ++ counterAssetSelect
    ++ " END AS rate," in
  let query :=
    query ++ " FROM `crypto-stellar.crypto_stellar.history_trades` T" in
  let query :=
    query ++ " JOIN `crypto-stellar.crypto_stellar.history_assets` B ON B.id=T.base_asset_id" in
  let query :=
    query ++ " JOIN `crypto-stellar.crypto_stellar.history_assets` C ON C.id=T.counter_asset_id" in
  let query :=
    query ++ " JOIN `crypto-stellar.crypto_stellar.history_ledgers` L ON L.closed_at=T.ledger_closed_at" in
  let query :=
    query ++ " WHERE (" ++ baseAssetMatch source dest ++ " OR "
    ++ counterAssetMatch source dest ++ ")" in
  let query :=
    if negb (startUnixTimestamp =? "") && negb (endUnixTimestamp =? "")
    then query ++ closedAtBetween startUnixTimestamp endUnixTimestamp
    else query in
  let query :=
    query ++ " GROUP BY title, B.asset_code, B.asset_issuer, C.asset_code, C.asset_issuer ORDER BY title ASC LIMIT "
    ++ fmt_d queryLimit in
  query.

(** *** createRateQuery *)
Definition normalMatch (source dest : Asset) : string :=
  "(M.base_code=" ++ quoted (Code source)
  ++ " AND M.base_issuer=" ++ quoted (Issuer source)
  ++ " AND M.counter_code=" ++ quoted (Code dest)
  ++ " AND M.counter_issuer=" ++ quoted (Issuer dest) ++ ")".

Definition reverseMatch (source dest : Asset) : string :=
  "(M.base_code=" ++ quoted (Code dest)
  ++ " AND M.base_issuer=" ++ quoted (Issuer dest)
  ++ " AND M.counter_code=" ++ quoted (Code source)
  ++ " AND M.counter_issuer=" ++ quoted (Issuer source) ++ ")".

Definition rateCalculation : string :=
  "(orderbooks.askPrices[OFFSET(0)]+orderbooks.bidPrices[OFFSET(0)])/2".

Definition baseIsSource (source : Asset) : string :=
  "orderbooks.base_code=" ++ quoted (Code source)
  ++ " AND orderbooks.base_issuer=" ++ quoted (Issuer source).

Definition createRateQuery (source dest : Asset)
  (startUnixTimestamp endUnixTimestamp aggregateBy : string) : string :=
  let titleField := getTitleField "E.ledger_id" "L.closed_at" aggregateBy in
  let query := "WITH orderbooks AS (" in
  let query :=
    query ++ " SELECT " ++ titleField
    ++ ", M.base_code, M.base_issuer, M.counter_code, M.counter_issuer," in
  let query :=
    query ++ " ARRAY_AGG(CASE WHEN O.action=" ++ quoted "b"
    ++ " THEN O.price END IGNORE NULLS ORDER BY O.price DESC) AS bidPrices," in
  let query :=
    query ++ " ARRAY_AGG(CASE WHEN O.action=" ++ quoted "s"
    ++ " THEN O.price END IGNORE NULLS ORDER BY O.price ASC) AS askPrices," in
  let query :=
    query ++ " FROM `hubble-261722.liquidity_data.fact_offer_events` AS E" in
  let query :=
    query ++ " INNER JOIN `hubble-261722.liquidity_data.dim_offers` O ON (E.offer_instance_id = O.dim_offer_id)" in
  let query :=
    query ++ " INNER JOIN `hubble-261722.liquidity_data.dim_markets` M ON (M.market_id = O.market_id)" in
  let query :=
    query ++ " INNER JOIN `hubble-261722.crypto_stellar_internal.history_ledgers` L ON (L.sequence = E.ledger_id)" in
  let query :=
    query ++ " WHERE (" ++ normalMatch source dest ++ " OR "
    ++ reverseMatch source dest ++ ")" in
  let query :=
    if negb (startUnixTimestamp =? "") && negb (endUnixTimestamp =? "")
    then query ++ closedAtBetween startUnixTimestamp endUnixTimestamp
    else query in
  let query :=
    query ++ " GROUP by title, M.base_code, M.base_issuer, M.counter_code, M.counter_issuer)" in
  let query :=
    query ++ " SELECT orderbooks.title, CASE WHEN " ++ baseIsSource source
    ++ " THEN " ++ rateCalculation ++ " ELSE 1/(" ++ rateCalculation
    ++ ") END AS rate FROM orderbooks" in
  let query := query ++ " WHERE " ++ rateCalculation ++ " IS NOT NULL" in
  let query :=
    query ++ " ORDER BY orderbooks.title ASC LIMIT " ++ fmt_d queryLimit in
  query.

(** *** The generated text read as SQL

    Each piece of text the builders interpolate is the printed form of
    a term of [Sql]; the results about rows are stated on these terms.
    The reading is the one of the sample queries in the source; a code
    or an issuer that itself holds a double quote would end the SQL
    literal early, and is outside of it. *)
Definition legIs (codeCol issuerCol : string) (a : Asset) : cond :=
  CAnd (CEq codeCol (Code a)) (CEq issuerCol (Issuer a)).

Definition baseAssetMatchC (source dest : Asset) : cond :=
  CParen (COr (CParen (legIs "B.asset_code" "B.asset_issuer" source))
              (CParen (legIs "C.asset_code" "C.asset_issuer" dest))).

Definition counterAssetMatchC (source dest : Asset) : cond :=
  CParen (COr (CParen (legIs "C.asset_code" "C.asset_issuer" source))
              (CParen (legIs "B.asset_code" "B.asset_issuer" dest))).

Definition tradeWhereC (source dest : Asset) : cond :=
  CParen (COr (baseAssetMatchC source dest) (counterAssetMatchC source dest)).

Definition baseAssetSelectE : expr :=
  EDiv (EVar "SUM(T.counter_amount)") (EVar "SUM(T.base_amount)").

Definition counterAssetSelectE : expr :=
  EDiv (EVar "SUM(T.base_amount)") (EVar "SUM(T.counter_amount)").

Definition tradeRateCase (source dest : Asset) : case_expr :=
  Case [ (baseAssetMatchC source dest, baseAssetSelectE);
         (counterAssetMatchC source dest, counterAssetSelectE) ]
       None.

Definition marketIs (base counter : Asset) : cond :=
  CParen (CAnd (CEq "M.base_code" (Code base))
         (CAnd (CEq "M.base_issuer" (Issuer base))
         (CAnd (CEq "M.counter_code" (Code counter))
               (CEq "M.counter_issuer" (Issuer counter))))).

Definition normalMatchC (source dest : Asset) : cond := marketIs source dest.
Definition reverseMatchC (source dest : Asset) : cond := marketIs dest source.

Definition orderbookWhereC (source dest : Asset) : cond :=
  CParen (COr (normalMatchC source dest) (reverseMatchC source dest)).

Definition baseIsSourceC (source : Asset) : cond :=
  legIs "orderbooks.base_code" "orderbooks.base_issuer" source.

Definition rateCalculationE : expr :=
  EDiv (EParen (EAdd (EVar "orderbooks.askPrices[OFFSET(0)]")
                     (EVar "orderbooks.bidPrices[OFFSET(0)]")))
       (EInt 2).

Definition reciprocalE : expr := EDiv (EInt 1) (EParen rateCalculationE).

Definition orderbookRateCase (source : Asset) : case_expr :=
  Case [ (baseIsSourceC source, rateCalculationE) ] (Some reciprocalE).

(** The optional clause on the ledger close time. *)
Definition timeFilter (startUnixTimestamp endUnixTimestamp : string) : string :=
  if negb (startUnixTimestamp =? "") && negb (endUnixTimestamp =? "")
  then closedAtBetween startUnixTimestamp endUnixTimestamp
  else "".

Definition tradeFrom : string :=
  " FROM `crypto-stellar.crypto_stellar.history_trades` T"
  ++ " JOIN `crypto-stellar.crypto_stellar.history_assets` B ON B.id=T.base_asset_id"
  ++ " JOIN `crypto-stellar.crypto_stellar.history_assets` C ON C.id=T.counter_asset_id"
  ++ " JOIN `crypto-stellar.crypto_stellar.history_ledgers` L ON L.closed_at=T.ledger_closed_at".

Definition tradeGroupBy : string :=
  " GROUP BY title, B.asset_code, B.asset_issuer, C.asset_code, C.asset_issuer".

Definition orderbookSelect (titleField : string) : string :=
  "WITH orderbooks AS ( SELECT " ++ titleField
  ++ ", M.base_code, M.base_issuer, M.counter_code, M.counter_issuer,"
  ++ " ARRAY_AGG(CASE WHEN O.action=" ++ quoted "b"
  ++ " THEN O.price END IGNORE NULLS ORDER BY O.price DESC) AS bidPrices,"
  ++ " ARRAY_AGG(CASE WHEN O.action=" ++ quoted "s"
  ++ " THEN O.price END IGNORE NULLS ORDER BY O.price ASC) AS askPrices,"
  ++ " FROM `hubble-261722.liquidity_data.fact_offer_events` AS E"
  ++ " INNER JOIN `hubble-261722.liquidity_data.dim_offers` O ON (E.offer_instance_id = O.dim_offer_id)"
  ++ " INNER JOIN `hubble-261722.liquidity_data.dim_markets` M ON (M.market_id = O.market_id)"
  ++ " INNER JOIN `hubble-261722.crypto_stellar_internal.history_ledgers` L ON (L.sequence = E.ledger_id)".

Definition orderbookGroupBy : string :=
  " GROUP by title, M.base_code, M.base_issuer, M.counter_code, M.counter_issuer)".

End Builders.

(** *** Rows the two final SELECTs range over

    A trade group is one group of the trade query: GROUP BY fixes the
    title and the two legs, and the two sums are taken over the trades
    of the group.  The WHERE clause only reads the legs, so it accepts
    or rejects the trades of a group together. *)
Record TradeGroup : Type := mkTradeGroup {
  tg_title : string;
  tg_base : Asset;
  tg_counter : Asset;
  tg_sum_base : Q;
  tg_sum_counter : Q
}.

Definition trade_text (g : TradeGroup) (col : string) : string :=
  if col =? "B.asset_code" then Code (tg_base g)
  else if col =? "B.asset_issuer" then Issuer (tg_base g)
  else if col =? "C.asset_code" then Code (tg_counter g)
  else if col =? "C.asset_issuer" then Issuer (tg_counter g)
  else "".

Definition trade_num (g : TradeGroup) (name : string) : value :=
  if name =? "SUM(T.base_amount)" then Some (tg_sum_base g)
  else if name =? "SUM(T.counter_amount)" then Some (tg_sum_counter g)
  else None.

(** The rows of the trade query over a list of groups: WHERE, then the
    title and the CASE of each group kept.  (Ordering and the row
    limit only rearrange and truncate this list.)  These are the rows
    selected before ORDER BY and LIMIT, under the reading of each
    interpolated code and issuer as one literal, which is the reading
    of the text when they hold no double quote. *)
Definition tradeRows (source dest : Asset) (groups : list TradeGroup)
  : list (string * value) :=
  map (fun g => (tg_title g,
                 eval_case (trade_text g) (trade_num g)
                   (tradeRateCase source dest)))
      (filter (fun g => eval_cond (trade_text g) (tradeWhereC source dest))
              groups).

(** An order book is one row of the intermediate table: a title, a
    market and its bid and ask prices, bids from the highest and asks
    from the lowest.  ARRAY_AGG over no price is NULL, and so is its
    first element. *)
Record Orderbook : Type := mkOrderbook {
  ob_title : string;
  ob_base : Asset;
  ob_counter : Asset;
  bidPrices : list Q;
  askPrices : list Q
}.

Definition orderbook_text (b : Orderbook) (col : string) : string :=
  if (col =? "M.base_code") || (col =? "orderbooks.base_code")
  then Code (ob_base b)
  else if (col =? "M.base_issuer") || (col =? "orderbooks.base_issuer")
  then Issuer (ob_base b)
  else if (col =? "M.counter_code") || (col =? "orderbooks.counter_code")
  then Code (ob_counter b)
  else if (col =? "M.counter_issuer") || (col =? "orderbooks.counter_issuer")
  then Issuer (ob_counter b)
  else "".

Definition orderbook_num (b : Orderbook) (name : string) : value :=
  if name =? "orderbooks.askPrices[OFFSET(0)]" then hd_error (askPrices b)
  else if name =? "orderbooks.bidPrices[OFFSET(0)]" then hd_error (bidPrices b)
  else None.

Definition is_not_null (v : value) : bool :=
  match v with Some _ => true | None => false end.

(** The rows of the order-book query over the order books of the
    period: the WHERE of the intermediate table, the IS NOT NULL stage,
    then the title and the CASE.  These are the rows selected before
    ORDER BY and LIMIT, in the order of the books, under the reading
    of each interpolated code and issuer as one literal. *)
Definition orderbookRows (source dest : Asset) (books : list Orderbook)
  : list (string * value) :=
  map (fun b => (ob_title b,
                 eval_case (orderbook_text b) (orderbook_num b)
                   (orderbookRateCase source)))
      (filter (fun b => is_not_null
                          (eval_expr (orderbook_num b) rateCalculationE))
         (filter (fun b => eval_cond (orderbook_text b)
                             (orderbookWhereC source dest))
                 books)).

(** The mid-price as the specification words it: (best ask + best
    bid) / 2, NULL unless the order book has both. *)
Definition midPrice (b : Orderbook) : value :=
  match hd_error (askPrices b), hd_error (bidPrices b) with
  | Some ask, Some bid => Some ((ask + bid) / inject_Z 2)%Q
  | _, _ => None
  end.

(** The reciprocal 1 / mid-price of the specification. *)
Definition v_inv (v : value) : value :=
  match v with
  | Some m => if Qeq_bool m 0 then None else Some (inject_Z 1 / m)%Q
  | None => None
  end.

(** Two rates are reciprocal, as the specification has it for the
    two directions of a pair, when their product is one; two NULLs
    correspond to each other. *)
Definition reciprocal (x y : value) : Prop :=
  match x, y with
  | Some a, Some b => (a * b == 1)%Q
  | None, None => True
  | _, _ => False
  end.

(** Whether an order book has a best ask, a best bid, in the words of
    the specification. *)
Definition hasAsk (b : Orderbook) : bool :=
  match askPrices b with [] => false | _ :: _ => true end.

Definition hasBid (b : Orderbook) : bool :=
  match bidPrices b with [] => false | _ :: _ => true end.

(** A rate that is not zero (NULL counts as such). *)
Definition nonzero (v : value) : bool :=
  match v with Some m => negb (Qeq_bool m 0) | None => true end.

Definition is_some {A : Type} (o : option A) : bool :=
  match o with Some _ => true | None => false end.

(** The orientation test as the specification words it: the base leg
    is the source and the counter leg the destination, or the reverse. *)
Definition fullOrientation (source dest : Asset) (g : TradeGroup) : bool :=
  (asset_eqb (tg_base g) source && asset_eqb (tg_counter g) dest)
  || (asset_eqb (tg_counter g) source && asset_eqb (tg_base g) dest).

(** *** RunRateQuery

    Errors are represented by their message, the text [%v] prints.  A
    row iterator is the script of the outcomes of its successive
    [Next] calls; once the script is over it reports Done. *)
Section Executor.

Variable RateResult : Type.

Inductive next_result : Type :=
| NextRow (res : RateResult)
| NextDone
| NextErr (err : string).

Definition RowIterator : Type := list next_result.

(** [runQuery] and the client are declared outside rate.go: a query
    and a client give an iterator or an error. *)
Variable Client : Type.
Variable runQuery : string -> Client -> RowIterator + string.

Variable getTitleField : string -> string -> string -> string.
Variable queryLimit : Z.

(** The [for] loop: [results] is the slice built so far. *)
Fixpoint drain (it : RowIterator) (results : list RateResult)
  : list RateResult * option string :=
  match it with
  | [] => (results, None)
  | NextDone :: _ => (results, None)
  | NextErr err :: _ =>
      ([], Some ("error parsing results from query: " ++ err))
  | NextRow res :: it' => drain it' (results ++ [res])%list
  end.

Definition RunRateQuery (source dest : Asset)
  (startUnixTimestamp endUnixTimestamp aggregateBy : string)
  (client : Client) : list RateResult * option string :=
  let query :=
    createRateQuery getTitleField queryLimit source dest
      startUnixTimestamp endUnixTimestamp aggregateBy in
  match runQuery query client with
  | inr err =>
      ([], Some ("error running query " ++ nl ++ query ++ nl ++ err))
  | inl it => drain it []
  end.

(** What RunRateQuery does with a query once it is built. *)
Definition execute (query : string) (client : Client)
  : list RateResult * option string :=
  match runQuery query client with
  | inr err =>
      ([], Some ("error running query " ++ nl ++ query ++ nl ++ err))
  | inl it => drain it []
  end.

(** The functions rate.go exports: RunRateQuery and no other; the two
    builders are package-private. *)
Inductive EntryPoint : Type := EpRunRateQuery.

Definition call (e : EntryPoint) :=
  match e with EpRunRateQuery => RunRateQuery end.

End Executor.

Arguments NextRow {RateResult} res.
Arguments NextDone {RateResult}.
Arguments NextErr {RateResult} err.
Arguments drain {RateResult} it results.
Arguments RunRateQuery {RateResult Client} runQuery getTitleField queryLimit
  source dest startUnixTimestamp endUnixTimestamp aggregateBy client.
Arguments execute {RateResult Client} runQuery query client.
Arguments call {RateResult Client} runQuery getTitleField queryLimit e
  source dest startUnixTimestamp endUnixTimestamp aggregateBy client.

End Queries.

Import Queries.

(** ** The scenario of the specification *)

Definition NGNT : Asset := mkAsset "NGNT" "ISSUER_A".
Definition EURT : Asset := mkAsset "EURT" "ISSUER_B".
Definition USDT : Asset := mkAsset "USDT" "ISSUER_C".

(** The title expression of the per-ledger sample queries quoted in
    rate.go, for a given sequence column. *)
Definition ledgerTitleField (sequenceCol closedAtCol aggregateBy : string)
  : string :=
  "FORMAT(" ++ quoted "Ledger %d" ++ ", " ++ sequenceCol ++ ") AS title".

Definition BTCX : Asset := mkAsset "BTCX" "ISSUER_D".

(** A group of trades of NGNT for EURT, and an order book of the
    market that stores the pair the other way round. *)
Definition sampleGroup : TradeGroup :=
  mkTradeGroup "Ledger 7" NGNT EURT (400 # 1) (1 # 1).

Definition sampleBook : Orderbook :=
  mkOrderbook "Ledger 7" EURT NGNT [(395 # 1); (390 # 1)] [(405 # 1)].

(** A warehouse with two cursors: [true] yields three rows, [false]
    fails on its second row. *)
Definition threeRows (query : string) (client : bool)
  : RowIterator string + string :=
  if client
  then inl [NextRow "Ledger 1"; NextRow "Ledger 2"; NextRow "Ledger 3";
            NextDone]
  else inl [NextRow "Ledger 1"; NextErr "bad row"; NextRow "Ledger 3";
            NextDone].

(** A warehouse that is down for the client [true] and fails on its
    second row for the client [false]. *)
Definition outage (query : string) (client : bool)
  : RowIterator string + string :=
  if client
  then inr "connection refused"
  else inl [NextRow "Ledger 1"; NextErr "bad row"].

(** A warehouse that answers the trade query of the scenario with
    one row and refuses any other text. *)
Definition tradeOnly (query : string) (client : unit)
  : RowIterator string + string :=
  if query =? createRateTradeQuery ledgerTitleField 100 NGNT EURT
                "1000" "2000" "ledger"
  then inl [NextRow "Ledger 7"; NextDone]
  else inr "unknown statement".

(** ** Inputs the further properties speak of *)

(** The double-quote character. *)
Definition dq_char : ascii :=
  Ascii false true false false false true false false.

(** A text with no double quote in it. *)
Fixpoint quote_free (s : string) : bool :=
  match s with
  | EmptyString => true
  | String c rest => negb (Ascii.eqb c dq_char) && quote_free rest
  end.

(** An asset whose code and issuer hold no double quote. *)
Definition plain (a : Asset) : bool :=
  quote_free (Code a) && quote_free (Issuer a).



(** A group neither of whose sums is zero: no quotient of the CASE
    divides by zero. *)
Definition nonzero_sums (g : TradeGroup) : Prop :=
  Qeq_bool (tg_sum_base g) 0 = false
  /\ Qeq_bool (tg_sum_counter g) 0 = false.

(** The end of both queries, ORDER BY title ASC LIMIT queryLimit, over
    the rows selected so far: the result is the first [queryLimit]
    rows of some arrangement of the selected rows in which the titles
    ascend.  Rows with the same title may come in any order. *)
Definition title_le (x y : string * value) : Prop :=
  String.leb (fst x) (fst y) = true.

Definition orderedAndLimited (queryLimit : Z)
  (selected result : list (string * value)) : Prop :=
  exists ordered,
    Permutation selected ordered
    /\ Sorted title_le ordered
    /\ result = firstn (Z.to_nat queryLimit) ordered.

(** An order book all of whose prices are positive. *)
Definition positive_prices (b : Orderbook) : Prop :=
  Forall (fun p => (0 < p)%Q) (askPrices b)
  /\ Forall (fun p => (0 < p)%Q) (bidPrices b).

(** ** Facts on strings *)

Module StringFacts.

Lemma append_nil_r (s : string) : s ++ "" = s.
Proof. induction s as [|c s IH]; simpl; [reflexivity | now rewrite IH]. Qed.

Lemma append_assoc (a b c : string) : (a ++ b) ++ c = a ++ (b ++ c).
Proof. induction a as [|x a IH]; simpl; [reflexivity | now rewrite IH]. Qed.

(** Both sides of an equation between concatenations, brought to the
    right-nested form with the literals pushed through. *)
Ltac flatten :=
  unfold quoted, dq;
  repeat (progress (cbn [append]; rewrite ?append_assoc));
  reflexivity.

End StringFacts.

Import StringFacts.

(** ** Facts on assets *)

Lemma asset_eqb_eq (a b : Asset) : asset_eqb a b = true <-> a = b.
Proof.
  destruct a as [ca ia], b as [cb ib]. unfold asset_eqb. simpl.
  rewrite andb_true_iff, !String.eqb_eq. split.
  - now intros [-> ->].
  - intro H. now inversion H.
Qed.

Lemma asset_eqb_neq (a b : Asset) : asset_eqb a b = false <-> a <> b.
Proof.
  rewrite <- asset_eqb_eq. destruct (asset_eqb a b); split; congruence.
Qed.

Lemma asset_eqb_spec (a b : Asset) : reflect (a = b) (asset_eqb a b).
Proof.
  destruct (asset_eqb a b) eqn:E; constructor.
  - now apply asset_eqb_eq.
  - now apply asset_eqb_neq.
Qed.

(** ** The printed form of the SQL terms *)

Section BuilderFacts.

Variable getTitleField : string -> string -> string -> string.
Variable queryLimit : Z.

Lemma render_baseAssetMatchC (source dest : Asset) :
  render_cond (baseAssetMatchC source dest) = baseAssetMatch source dest.
Proof. unfold baseAssetMatch, quoted. cbn. flatten. Qed.

Lemma render_counterAssetMatchC (source dest : Asset) :
  render_cond (counterAssetMatchC source dest) = counterAssetMatch source dest.
Proof. unfold counterAssetMatch, quoted. cbn. flatten. Qed.

Lemma render_normalMatchC (source dest : Asset) :
  render_cond (normalMatchC source dest) = normalMatch source dest.
Proof. unfold normalMatch, quoted. cbn. flatten. Qed.

Lemma render_reverseMatchC (source dest : Asset) :
  render_cond (reverseMatchC source dest) = reverseMatch source dest.
Proof. unfold reverseMatch, quoted. cbn. flatten. Qed.

Lemma render_baseIsSourceC (source : Asset) :
  render_cond (baseIsSourceC source) = baseIsSource source.
Proof. unfold baseIsSource, quoted. cbn. flatten. Qed.

Lemma render_baseAssetSelectE : render_expr baseAssetSelectE = baseAssetSelect.
Proof. reflexivity. Qed.

Lemma render_counterAssetSelectE :
  render_expr counterAssetSelectE = counterAssetSelect.
Proof. reflexivity. Qed.

Lemma render_rateCalculationE : render_expr rateCalculationE = rateCalculation.
Proof. reflexivity. Qed.

Lemma render_reciprocalE :
  render_expr reciprocalE = "1/(" ++ rateCalculation ++ ")".
Proof. reflexivity. Qed.

Lemma render_tradeRateCase (source dest : Asset) :
  render_case (tradeRateCase source dest)
  = "CASE WHEN " ++ baseAssetMatch source dest ++ " THEN " ++ baseAssetSelect
    ++ " WHEN " ++ counterAssetMatch source dest ++ " THEN "
    ++ counterAssetSelect ++ " END".
Proof.
  rewrite <- render_baseAssetMatchC, <- render_counterAssetMatchC.
  unfold render_case, tradeRateCase, whens, otherwise, render_whens.
  rewrite render_baseAssetSelectE, render_counterAssetSelectE.
  flatten.
Qed.

Lemma render_orderbookRateCase (source : Asset) :
  render_case (orderbookRateCase source)
  = "CASE WHEN " ++ baseIsSource source ++ " THEN " ++ rateCalculation
    ++ " ELSE 1/(" ++ rateCalculation ++ ") END".
Proof.
  rewrite <- render_baseIsSourceC.
  unfold render_case, orderbookRateCase, whens, otherwise, render_whens.
  rewrite render_reciprocalE, render_rateCalculationE.
  flatten.
Qed.

(** The whole text of each query, clause by clause. *)
Lemma createRateTradeQuery_shape (source dest : Asset)
  (startUnixTimestamp endUnixTimestamp aggregateBy : string) :
  createRateTradeQuery getTitleField queryLimit source dest
    startUnixTimestamp endUnixTimestamp aggregateBy
  = "SELECT " ++ getTitleField "L.sequence" "L.closed_at" aggregateBy ++ ", "
    ++ render_case (tradeRateCase source dest) ++ " AS rate,"
    ++ tradeFrom
    ++ " WHERE " ++ render_cond (tradeWhereC source dest)
    ++ timeFilter startUnixTimestamp endUnixTimestamp
    ++ tradeGroupBy
    ++ " ORDER BY title ASC LIMIT " ++ fmt_d queryLimit.
Proof.
  rewrite render_tradeRateCase.
  change (render_cond (tradeWhereC source dest))
    with ("(" ++ (render_cond (baseAssetMatchC source dest) ++ " OR "
          ++ render_cond (counterAssetMatchC source dest)) ++ ")").
  rewrite render_baseAssetMatchC, render_counterAssetMatchC.
  unfold createRateTradeQuery, timeFilter.
  destruct (negb (startUnixTimestamp =? "") && negb (endUnixTimestamp =? ""));
    cbv zeta; flatten.
Qed.

Lemma createRateQuery_shape (source dest : Asset)
  (startUnixTimestamp endUnixTimestamp aggregateBy : string) :
  createRateQuery getTitleField queryLimit source dest
    startUnixTimestamp endUnixTimestamp aggregateBy
  = orderbookSelect (getTitleField "E.ledger_id" "L.closed_at" aggregateBy)
    ++ " WHERE " ++ render_cond (orderbookWhereC source dest)
    ++ timeFilter startUnixTimestamp endUnixTimestamp
    ++ orderbookGroupBy
    ++ " SELECT orderbooks.title, "
    ++ render_case (orderbookRateCase source) ++ " AS rate FROM orderbooks"
    ++ " WHERE " ++ render_expr rateCalculationE ++ " IS NOT NULL"
    ++ " ORDER BY orderbooks.title ASC LIMIT " ++ fmt_d queryLimit.
Proof.
  rewrite render_orderbookRateCase, render_rateCalculationE.
  change (render_cond (orderbookWhereC source dest))
    with ("(" ++ (render_cond (normalMatchC source dest) ++ " OR "
          ++ render_cond (reverseMatchC source dest)) ++ ")").
  rewrite render_normalMatchC, render_reverseMatchC.
  unfold createRateQuery, timeFilter, orderbookSelect.
  destruct (negb (startUnixTimestamp =? "") && negb (endUnixTimestamp =? ""));
    cbv zeta; flatten.
Qed.

End BuilderFacts.

(** ** The loop of the executor *)

Section ExecutorFacts.

Variable RateResult : Type.

Lemma drain_rows (rows : list RateResult) (it : RowIterator RateResult)
  (results : list RateResult) :
  drain (map NextRow rows ++ it)%list results
  = drain it (results ++ rows)%list.
Proof.
  revert results. induction rows as [|r rows IH]; intro results; simpl.
  - now rewrite app_nil_r.
  - rewrite IH. now rewrite <- app_assoc.
Qed.

Lemma drain_done (rows : list RateResult) (rest : RowIterator RateResult) :
  drain (map NextRow rows ++ NextDone :: rest)%list [] = (rows, None).
Proof. now rewrite drain_rows. Qed.

Lemma drain_exhausted (rows : list RateResult) :
  drain (map NextRow rows) [] = (rows, None).
Proof.
  rewrite <- (app_nil_r (map NextRow rows)). now rewrite drain_rows.
Qed.

Lemma drain_err (rows : list RateResult) (err : string) (rest : RowIterator RateResult) :
  drain (map NextRow rows ++ NextErr err :: rest)%list []
  = ([], Some ("error parsing results from query: " ++ err)).
Proof. now rewrite drain_rows. Qed.

Lemma drain_outcome (it : RowIterator RateResult) (results : list RateResult) :
  (exists rows, drain it results = (rows, None))
  \/ (exists msg, drain it results = ([], Some msg)).
Proof.
  revert results. induction it as [|n it IH]; intro results.
  - left. now exists results.
  - destruct n as [res| |err]; simpl.
    + apply IH.
    + left. now exists results.
    + right. eexists. reflexivity.
Qed.

End ExecutorFacts.

(** ** How the conditions read on rows *)

Lemma eval_baseAssetMatchC (g : TradeGroup) (source dest : Asset) :
  eval_cond (trade_text g) (baseAssetMatchC source dest)
  = asset_eqb (tg_base g) source || asset_eqb (tg_counter g) dest.
Proof. reflexivity. Qed.

Lemma eval_counterAssetMatchC (g : TradeGroup) (source dest : Asset) :
  eval_cond (trade_text g) (counterAssetMatchC source dest)
  = asset_eqb (tg_counter g) source || asset_eqb (tg_base g) dest.
Proof. reflexivity. Qed.

Lemma eval_tradeWhereC (g : TradeGroup) (source dest : Asset) :
  eval_cond (trade_text g) (tradeWhereC source dest)
  = (asset_eqb (tg_base g) source || asset_eqb (tg_counter g) dest)
    || (asset_eqb (tg_counter g) source || asset_eqb (tg_base g) dest).
Proof. reflexivity. Qed.

Lemma eval_marketIs (b : Orderbook) (base counter : Asset) :
  eval_cond (orderbook_text b) (marketIs base counter)
  = asset_eqb (ob_base b) base && asset_eqb (ob_counter b) counter.
Proof.
  unfold asset_eqb. cbn. now rewrite andb_assoc.
Qed.

Lemma eval_orderbookWhereC (b : Orderbook) (source dest : Asset) :
  eval_cond (orderbook_text b) (orderbookWhereC source dest)
  = (asset_eqb (ob_base b) source && asset_eqb (ob_counter b) dest)
    || (asset_eqb (ob_base b) dest && asset_eqb (ob_counter b) source).
Proof.
  change (eval_cond (orderbook_text b) (orderbookWhereC source dest))
    with (eval_cond (orderbook_text b) (marketIs source dest)
          || eval_cond (orderbook_text b) (marketIs dest source)).
  now rewrite !eval_marketIs.
Qed.

Lemma eval_baseIsSourceC (b : Orderbook) (source : Asset) :
  eval_cond (orderbook_text b) (baseIsSourceC source)
  = asset_eqb (ob_base b) source.
Proof. reflexivity. Qed.

Lemma eval_rateCalculationE (b : Orderbook) :
  eval_expr (orderbook_num b) rateCalculationE = midPrice b.
Proof.
  unfold midPrice. cbn.
  destruct (hd_error (askPrices b)), (hd_error (bidPrices b)); reflexivity.
Qed.

Lemma eval_reciprocalE (b : Orderbook) :
  eval_expr (orderbook_num b) reciprocalE = v_inv (midPrice b).
Proof.
  change (eval_expr (orderbook_num b) reciprocalE)
    with (v_div (Some (inject_Z 1))
            (eval_expr (orderbook_num b) rateCalculationE)).
  rewrite eval_rateCalculationE. now destruct (midPrice b).
Qed.

Lemma select_orderbookRateCase (b : Orderbook) (source : Asset) :
  select_branch (orderbook_text b) (orderbookRateCase source)
  = Some (if asset_eqb (ob_base b) source
          then rateCalculationE else reciprocalE).
Proof.
  unfold select_branch, orderbookRateCase, whens, otherwise, select_when.
  rewrite eval_baseIsSourceC. now destruct (asset_eqb (ob_base b) source).
Qed.

Lemma eval_orderbookRateCase (b : Orderbook) (source : Asset) :
  eval_case (orderbook_text b) (orderbook_num b) (orderbookRateCase source)
  = if asset_eqb (ob_base b) source then midPrice b else v_inv (midPrice b).
Proof.
  unfold eval_case. rewrite select_orderbookRateCase.
  destruct (asset_eqb (ob_base b) source).
  - apply eval_rateCalculationE.
  - apply eval_reciprocalE.
Qed.

Lemma select_tradeRateCase (g : TradeGroup) (source dest : Asset) :
  select_branch (trade_text g) (tradeRateCase source dest)
  = if asset_eqb (tg_base g) source || asset_eqb (tg_counter g) dest
    then Some baseAssetSelectE
    else if asset_eqb (tg_counter g) source || asset_eqb (tg_base g) dest
         then Some counterAssetSelectE
         else None.
Proof.
  unfold select_branch, tradeRateCase, whens, otherwise, select_when.
  rewrite eval_baseAssetMatchC, eval_counterAssetMatchC.
  destruct (asset_eqb (tg_base g) source || asset_eqb (tg_counter g) dest);
    [reflexivity|].
  now destruct (asset_eqb (tg_counter g) source || asset_eqb (tg_base g) dest).
Qed.

Lemma eval_baseAssetSelectE (g : TradeGroup) :
  eval_expr (trade_num g) baseAssetSelectE
  = v_div (Some (tg_sum_counter g)) (Some (tg_sum_base g)).
Proof. reflexivity. Qed.

Lemma eval_counterAssetSelectE (g : TradeGroup) :
  eval_expr (trade_num g) counterAssetSelectE
  = v_div (Some (tg_sum_base g)) (Some (tg_sum_counter g)).
Proof. reflexivity. Qed.

Lemma midPrice_not_null (b : Orderbook) :
  is_not_null (midPrice b) = hasAsk b && hasBid b.
Proof.
  unfold midPrice, hasAsk, hasBid.
  destruct (askPrices b), (bidPrices b); reflexivity.
Qed.

(** ** The trade-rate query *)

(** C1, on the code.  For the pair NGNT/ISSUER_A to EURT/ISSUER_B the
    forward predicate the builder prints is a disjunction of two
    single-leg tests.  A group of trades of NGNT against a third asset
    is in neither full orientation, yet it passes the WHERE clause and
    its rate is the quotient of the first CASE branch. *)
Theorem trade_match_accepts_single_leg :
  let g := mkTradeGroup "Ledger 7" NGNT USDT (10 # 1) (5 # 1) in
  baseAssetMatch NGNT EURT
  = "(" ++ "(B.asset_code=" ++ quoted "NGNT"
    ++ " AND B.asset_issuer=" ++ quoted "ISSUER_A" ++ ")"
    ++ " OR "
    ++ "(C.asset_code=" ++ quoted "EURT"
    ++ " AND C.asset_issuer=" ++ quoted "ISSUER_B" ++ ")" ++ ")"
  /\ fullOrientation NGNT EURT g = false
  /\ eval_cond (trade_text g) (tradeWhereC NGNT EURT) = true
  /\ tradeRows NGNT EURT [g] = [("Ledger 7", Some ((5 # 1) / (10 # 1))%Q)].
Proof. cbv zeta. repeat split; vm_compute; reflexivity. Qed.

(** The same holds whatever the third asset and the pair are: one
    matching leg is enough for a group to be counted. *)
Lemma trade_where_single_leg (source dest : Asset) (g : TradeGroup) :
  tg_base g = source ->
  eval_cond (trade_text g) (tradeWhereC source dest) = true.
Proof.
  intros <-. rewrite eval_tradeWhereC.
  destruct (asset_eqb_spec (tg_base g) (tg_base g)); [reflexivity | congruence].
Qed.

(** ** The order-book query *)

(** C2.  The final SELECT of the order-book query is a CASE on the
    base leg of the market: the mid-price (best ask + best bid) / 2
    when the base leg is the source, its reciprocal otherwise. *)
Theorem orderbook_rate_mid_or_reciprocal
  (getTitleField : string -> string -> string -> string) (queryLimit : Z)
  (source dest : Asset)
  (startUnixTimestamp endUnixTimestamp aggregateBy : string)
  (b : Orderbook) :
  contains
    (createRateQuery getTitleField queryLimit source dest
       startUnixTimestamp endUnixTimestamp aggregateBy)
    (" SELECT orderbooks.title, CASE WHEN " ++ baseIsSource source
     ++ " THEN " ++ rateCalculation ++ " ELSE 1/(" ++ rateCalculation
     ++ ") END AS rate FROM orderbooks")
  /\ render_case (orderbookRateCase source)
     = "CASE WHEN " ++ baseIsSource source ++ " THEN " ++ rateCalculation
       ++ " ELSE 1/(" ++ rateCalculation ++ ") END"
  /\ eval_expr (orderbook_num b) rateCalculationE = midPrice b
  /\ eval_case (orderbook_text b) (orderbook_num b) (orderbookRateCase source)
     = if asset_eqb (ob_base b) source
       then midPrice b
       else v_inv (midPrice b).
Proof.
  split; [|split; [|split]].
  - exists (orderbookSelect
              (getTitleField "E.ledger_id" "L.closed_at" aggregateBy)
            ++ " WHERE " ++ render_cond (orderbookWhereC source dest)
            ++ timeFilter startUnixTimestamp endUnixTimestamp
            ++ orderbookGroupBy),
           (" WHERE " ++ rateCalculation ++ " IS NOT NULL"
            ++ " ORDER BY orderbooks.title ASC LIMIT " ++ fmt_d queryLimit).
    rewrite createRateQuery_shape, render_orderbookRateCase,
      render_rateCalculationE.
    flatten.
  - apply render_orderbookRateCase.
  - apply eval_rateCalculationE.
  - apply eval_orderbookRateCase.
Qed.

(** ** Time range, ordering and row limit *)

(** C4.  Each query is a fixed text around one optional clause: when
    both bounds are non-empty the clause is the BETWEEN filter on the
    ledger close time, built from the two bounds as they are; when
    either bound is empty the clause is absent and nothing stands in
    its place. *)
Theorem time_filter_clause
  (getTitleField : string -> string -> string -> string) (queryLimit : Z)
  (source dest : Asset)
  (startUnixTimestamp endUnixTimestamp aggregateBy : string) :
  createRateTradeQuery getTitleField queryLimit source dest
    startUnixTimestamp endUnixTimestamp aggregateBy
  = ("SELECT " ++ getTitleField "L.sequence" "L.closed_at" aggregateBy
     ++ ", " ++ render_case (tradeRateCase source dest) ++ " AS rate,"
     ++ tradeFrom ++ " WHERE " ++ render_cond (tradeWhereC source dest))
    ++ (if (startUnixTimestamp =? "") || (endUnixTimestamp =? "")
        then ""
        else " AND L.closed_at BETWEEN TIMESTAMP_SECONDS("
             ++ startUnixTimestamp ++ ") AND TIMESTAMP_SECONDS("
             ++ endUnixTimestamp ++ ")")
    ++ (tradeGroupBy ++ " ORDER BY title ASC LIMIT " ++ fmt_d queryLimit)
  /\ createRateQuery getTitleField queryLimit source dest
       startUnixTimestamp endUnixTimestamp aggregateBy
     = (orderbookSelect
          (getTitleField "E.ledger_id" "L.closed_at" aggregateBy)
        ++ " WHERE " ++ render_cond (orderbookWhereC source dest))
       ++ (if (startUnixTimestamp =? "") || (endUnixTimestamp =? "")
           then ""
           else " AND L.closed_at BETWEEN TIMESTAMP_SECONDS("
                ++ startUnixTimestamp ++ ") AND TIMESTAMP_SECONDS("
                ++ endUnixTimestamp ++ ")")
       ++ (orderbookGroupBy ++ " SELECT orderbooks.title, "
           ++ render_case (orderbookRateCase source)
           ++ " AS rate FROM orderbooks WHERE "
           ++ render_expr rateCalculationE ++ " IS NOT NULL"
           ++ " ORDER BY orderbooks.title ASC LIMIT " ++ fmt_d queryLimit).
Proof.
  rewrite createRateTradeQuery_shape, createRateQuery_shape.
  unfold timeFilter, closedAtBetween.
  destruct (startUnixTimestamp =? ""), (endUnixTimestamp =? "");
    cbn [negb andb orb]; split; flatten.
Qed.

(** On the scenario: one BETWEEN filter with both bounds, none when a
    bound is missing. *)
Example time_filter_occurrences :
  let trade := createRateTradeQuery ledgerTitleField 100 NGNT EURT in
  let book := createRateQuery ledgerTitleField 100 NGNT EURT in
  let filter := "L.closed_at BETWEEN" in
  occurrences filter (trade "1000" "2000" "ledger") = 1%nat
  /\ occurrences filter (book "1000" "2000" "ledger") = 1%nat
  /\ occurrences "BETWEEN TIMESTAMP_SECONDS(1000) AND TIMESTAMP_SECONDS(2000)"
       (trade "1000" "2000" "ledger") = 1%nat
  /\ occurrences "BETWEEN TIMESTAMP_SECONDS(1000) AND TIMESTAMP_SECONDS(2000)"
       (book "1000" "2000" "ledger") = 1%nat
  /\ occurrences filter (trade "" "" "ledger") = 0%nat
  /\ occurrences filter (trade "1000" "" "ledger") = 0%nat
  /\ occurrences filter (trade "" "2000" "ledger") = 0%nat
  /\ occurrences filter (book "" "" "ledger") = 0%nat
  /\ occurrences filter (book "1000" "" "ledger") = 0%nat
  /\ occurrences filter (book "" "2000" "ledger") = 0%nat.
Proof.
  cbv zeta. repeat split; vm_compute; reflexivity.
Qed.

(** C8.  Both queries finish with the ascending order on the title
    column and the same limit, the package constant [queryLimit],
    which is no argument of either builder. *)
Theorem order_by_title_and_limit
  (getTitleField : string -> string -> string -> string) (queryLimit : Z)
  (source dest : Asset)
  (startUnixTimestamp endUnixTimestamp aggregateBy : string) :
  ends_with
    (createRateTradeQuery getTitleField queryLimit source dest
       startUnixTimestamp endUnixTimestamp aggregateBy)
    (" ORDER BY title ASC LIMIT " ++ fmt_d queryLimit)
  /\ ends_with
       (createRateQuery getTitleField queryLimit source dest
          startUnixTimestamp endUnixTimestamp aggregateBy)
       (" ORDER BY orderbooks.title ASC LIMIT " ++ fmt_d queryLimit)
  /\ ends_with
       (createRateTradeQuery getTitleField queryLimit source dest
          startUnixTimestamp endUnixTimestamp aggregateBy)
       ("title ASC LIMIT " ++ fmt_d queryLimit)
  /\ ends_with
       (createRateQuery getTitleField queryLimit source dest
          startUnixTimestamp endUnixTimestamp aggregateBy)
       ("title ASC LIMIT " ++ fmt_d queryLimit).
Proof.
  rewrite createRateTradeQuery_shape, createRateQuery_shape.
  set (tradeHead :=
         "SELECT " ++ getTitleField "L.sequence" "L.closed_at" aggregateBy
         ++ ", " ++ render_case (tradeRateCase source dest) ++ " AS rate,"
         ++ tradeFrom ++ " WHERE " ++ render_cond (tradeWhereC source dest)
         ++ timeFilter startUnixTimestamp endUnixTimestamp ++ tradeGroupBy).
  set (bookHead :=
         orderbookSelect
           (getTitleField "E.ledger_id" "L.closed_at" aggregateBy)
         ++ " WHERE " ++ render_cond (orderbookWhereC source dest)
         ++ timeFilter startUnixTimestamp endUnixTimestamp
         ++ orderbookGroupBy ++ " SELECT orderbooks.title, "
         ++ render_case (orderbookRateCase source)
         ++ " AS rate FROM orderbooks" ++ " WHERE "
         ++ render_expr rateCalculationE ++ " IS NOT NULL").
  repeat split.
  - exists tradeHead. subst tradeHead. flatten.
  - exists bookHead. subst bookHead. flatten.
  - exists (tradeHead ++ " ORDER BY "). subst tradeHead. flatten.
  - exists (bookHead ++ " ORDER BY orderbooks."). subst bookHead. flatten.
Qed.

Example limit_of_the_samples :
  fmt_d 100 = "100" /\ fmt_d 0 = "0" /\ fmt_d (-5) = "-5".
Proof. repeat split. Qed.

(** ** Buckets without a rate *)

(** C5, as stated, fails on the trade query: a group whose legs match
    neither CASE branch is not returned with a NULL rate, it is not
    returned at all. *)
Lemma trade_unmatched_group_is_dropped :
  let g := mkTradeGroup "Ledger 7" USDT BTCX (10 # 1) (5 # 1) in
  select_branch (trade_text g) (tradeRateCase NGNT EURT) = None
  /\ eval_case (trade_text g) (trade_num g) (tradeRateCase NGNT EURT) = None
  /\ tradeRows NGNT EURT [g] = []
  /\ ~ In (tg_title g, None) (tradeRows NGNT EURT [g]).
Proof.
  cbv zeta. repeat split; try (vm_compute; reflexivity).
  vm_compute. intros [].
Qed.

(** C5, amended.  The order-book query ends with the IS NOT NULL stage
    on the mid-price, so its rows are those of the order books of the
    pair that have both a best ask and a best bid.  The trade query
    has no such stage and its CASE has no ELSE; its WHERE clause is
    the disjunction of the two CASE conditions, so the groups it keeps
    are exactly those that select a branch. *)
Theorem incomplete_buckets_excluded
  (getTitleField : string -> string -> string -> string) (queryLimit : Z)
  (source dest : Asset)
  (startUnixTimestamp endUnixTimestamp aggregateBy : string)
  (books : list Orderbook) (g : TradeGroup) :
  ends_with
    (createRateQuery getTitleField queryLimit source dest
       startUnixTimestamp endUnixTimestamp aggregateBy)
    (" FROM orderbooks WHERE " ++ rateCalculation ++ " IS NOT NULL"
     ++ " ORDER BY orderbooks.title ASC LIMIT " ++ fmt_d queryLimit)
  /\ orderbookRows source dest books
     = map (fun b => (ob_title b,
                      if asset_eqb (ob_base b) source
                      then midPrice b else v_inv (midPrice b)))
         (filter (fun b => hasAsk b && hasBid b)
            (filter (fun b => eval_cond (orderbook_text b)
                                (orderbookWhereC source dest))
                    books))
  /\ createRateTradeQuery getTitleField queryLimit source dest
       startUnixTimestamp endUnixTimestamp aggregateBy
     = "SELECT " ++ getTitleField "L.sequence" "L.closed_at" aggregateBy
       ++ ", " ++ render_case (tradeRateCase source dest) ++ " AS rate,"
       ++ tradeFrom
       ++ " WHERE " ++ render_cond (tradeWhereC source dest)
       ++ timeFilter startUnixTimestamp endUnixTimestamp
       ++ tradeGroupBy
       ++ " ORDER BY title ASC LIMIT " ++ fmt_d queryLimit
  /\ otherwise (tradeRateCase source dest) = None
  /\ eval_cond (trade_text g) (tradeWhereC source dest)
     = is_some (select_branch (trade_text g) (tradeRateCase source dest)).
Proof.
  split; [|split; [|split; [|split]]].
  - rewrite createRateQuery_shape, render_orderbookRateCase,
      render_rateCalculationE.
    exists (orderbookSelect
              (getTitleField "E.ledger_id" "L.closed_at" aggregateBy)
            ++ " WHERE " ++ render_cond (orderbookWhereC source dest)
            ++ timeFilter startUnixTimestamp endUnixTimestamp
            ++ orderbookGroupBy ++ " SELECT orderbooks.title, CASE WHEN "
            ++ baseIsSource source ++ " THEN " ++ rateCalculation
            ++ " ELSE 1/(" ++ rateCalculation ++ ") END AS rate").
    flatten.
  - unfold orderbookRows.
    rewrite (filter_ext
               (fun b => is_not_null
                           (eval_expr (orderbook_num b) rateCalculationE))
               (fun b => hasAsk b && hasBid b)).
    + apply map_ext. intro b. now rewrite eval_orderbookRateCase.
    + intro b. now rewrite eval_rateCalculationE, midPrice_not_null.
  - apply createRateTradeQuery_shape.
  - reflexivity.
  - rewrite eval_tradeWhereC, select_tradeRateCase.
    destruct (asset_eqb (tg_base g) source || asset_eqb (tg_counter g) dest);
      [reflexivity|].
    now destruct (asset_eqb (tg_counter g) source
                  || asset_eqb (tg_base g) dest).
Qed.

(** ** Swapping source and destination *)
Lemma select_exprs_differ : baseAssetSelectE <> counterAssetSelectE.
Proof. unfold baseAssetSelectE, counterAssetSelectE. congruence. Qed.

Lemma rate_exprs_differ : rateCalculationE <> reciprocalE.
Proof. unfold rateCalculationE, reciprocalE. congruence. Qed.

Lemma reciprocal_quotients (x y : Q) :
  Qeq_bool x 0 = false -> Qeq_bool y 0 = false ->
  reciprocal (v_div (Some x) (Some y)) (v_div (Some y) (Some x)).
Proof.
  intros Hx Hy. unfold v_div. rewrite Hx, Hy. simpl.
  apply Qeq_bool_neq in Hx. apply Qeq_bool_neq in Hy. field. now split.
Qed.

Lemma reciprocal_inverse (v : value) :
  nonzero v = true -> reciprocal v (v_inv v) /\ reciprocal (v_inv v) v.
Proof.
  destruct v as [m|]; simpl; [|now split].
  intro H. apply negb_true_iff in H. rewrite H. simpl.
  apply Qeq_bool_neq in H. split; field; exact H.
Qed.

(** In the trade query the swapped forward predicate and the original
    reverse predicate list the same two leg tests in opposite orders:
    they are one condition and two texts. *)
Remark trade_predicates_text_order (A B : Asset) :
  baseAssetMatch B A <> counterAssetMatch A B
  /\ baseAssetMatchC B A
     = CParen (COr (CParen (legIs "B.asset_code" "B.asset_issuer" B))
                   (CParen (legIs "C.asset_code" "C.asset_issuer" A)))
  /\ counterAssetMatchC A B
     = CParen (COr (CParen (legIs "C.asset_code" "C.asset_issuer" A))
                   (CParen (legIs "B.asset_code" "B.asset_issuer" B))).
Proof.
  split; [|split; reflexivity].
  unfold baseAssetMatch, counterAssetMatch. cbn [append]. discriminate.
Qed.







(** Degenerate inputs of the builders: one bound only, the same asset
    on both sides, empty codes and issuers. *)
Example degenerate_inputs :
  let nobody := mkAsset "" "" in
  createRateTradeQuery ledgerTitleField 100 NGNT EURT "1000" "" "ledger"
  = createRateTradeQuery ledgerTitleField 100 NGNT EURT "" "" "ledger"
  /\ createRateQuery ledgerTitleField 100 NGNT EURT "" "2000" "ledger"
     = createRateQuery ledgerTitleField 100 NGNT EURT "" "" "ledger"
  /\ normalMatch NGNT NGNT = reverseMatch NGNT NGNT
  /\ baseAssetMatch nobody nobody
     = "((B.asset_code=" ++ quoted "" ++ " AND B.asset_issuer=" ++ quoted ""
       ++ ") OR (C.asset_code=" ++ quoted "" ++ " AND C.asset_issuer="
       ++ quoted "" ++ "))".
Proof. cbv zeta. repeat split; vm_compute; reflexivity. Qed.

(** ** The executor *)

(** C6.  When the iterator yields rows and then reports Done, the
    rows come back in the order they were yielded, with no error;
    when a row fails to decode, an error comes back with no slice at
    all, whatever was decoded before. *)
Theorem executor_all_or_nothing
  (RateResult Client : Type)
  (runQuery : string -> Client -> RowIterator RateResult + string)
  (getTitleField : string -> string -> string -> string) (queryLimit : Z)
  (source dest : Asset)
  (startUnixTimestamp endUnixTimestamp aggregateBy : string)
  (good bad : Client)
  (rows decoded : list RateResult) (err : string)
  (unread unread' : RowIterator RateResult) :
  runQuery
    (createRateQuery getTitleField queryLimit source dest
       startUnixTimestamp endUnixTimestamp aggregateBy) good
  = inl (map NextRow rows ++ NextDone :: unread)%list ->
  runQuery
    (createRateQuery getTitleField queryLimit source dest
       startUnixTimestamp endUnixTimestamp aggregateBy) bad
  = inl (map NextRow decoded ++ NextErr err :: unread')%list ->
  RunRateQuery runQuery getTitleField queryLimit source dest
    startUnixTimestamp endUnixTimestamp aggregateBy good
  = (rows, None)
  /\ RunRateQuery runQuery getTitleField queryLimit source dest
       startUnixTimestamp endUnixTimestamp aggregateBy bad
     = ([], Some ("error parsing results from query: " ++ err)).
Proof.
  intros Hgood Hbad. unfold RunRateQuery. cbv zeta.
  rewrite Hgood, Hbad. split.
  - apply drain_done.
  - apply drain_err.
Qed.

(** C6 on a cursor of three rows and on one that fails at its second
    row. *)
Lemma executor_all_or_nothing_witness :
  RunRateQuery threeRows ledgerTitleField 100 NGNT EURT "1000" "2000"
    "ledger" true
  = (["Ledger 1"; "Ledger 2"; "Ledger 3"], None)
  /\ RunRateQuery threeRows ledgerTitleField 100 NGNT EURT "1000" "2000"
       "ledger" false
     = ([], Some "error parsing results from query: bad row").
Proof.
  exact (executor_all_or_nothing string bool threeRows ledgerTitleField 100
           NGNT EURT "1000" "2000" "ledger" true false
           ["Ledger 1"; "Ledger 2"; "Ledger 3"] ["Ledger 1"] "bad row"
           [] [NextRow "Ledger 3"; NextDone] eq_refl eq_refl).
Defined.

(** C9.  When the submission fails, no result comes back and the
    error message is the fixed words, the whole text of the query and
    the cause, each on a line of its own.  The message of a decoding
    failure is the fixed words and the cause: the query is no part of
    it, and it is the same whichever query was run. *)
Theorem submission_error_keeps_sql
  (RateResult Client : Type)
  (runQuery : string -> Client -> RowIterator RateResult + string)
  (getTitleField : string -> string -> string -> string) (queryLimit : Z)
  (source dest source' dest' : Asset)
  (startUnixTimestamp endUnixTimestamp aggregateBy : string)
  (startUnixTimestamp' endUnixTimestamp' aggregateBy' : string)
  (down bad : Client) (cause err : string)
  (decoded : list RateResult) (unread : RowIterator RateResult) :
  let query :=
    createRateQuery getTitleField queryLimit source dest
      startUnixTimestamp endUnixTimestamp aggregateBy in
  let query' :=
    createRateQuery getTitleField queryLimit source' dest'
      startUnixTimestamp' endUnixTimestamp' aggregateBy' in
  runQuery query down = inr cause ->
  runQuery query' bad
  = inl (map NextRow decoded ++ NextErr err :: unread)%list ->
  RunRateQuery runQuery getTitleField queryLimit source dest
    startUnixTimestamp endUnixTimestamp aggregateBy down
  = ([], Some ("error running query " ++ nl ++ query ++ nl ++ cause))
  /\ contains ("error running query " ++ nl ++ query ++ nl ++ cause) query
  /\ ends_with ("error running query " ++ nl ++ query ++ nl ++ cause) cause
  /\ RunRateQuery runQuery getTitleField queryLimit source' dest'
       startUnixTimestamp' endUnixTimestamp' aggregateBy' bad
     = ([], Some ("error parsing results from query: " ++ err)).
Proof.
  intros query query' Hdown Hbad. unfold RunRateQuery. cbv zeta.
  fold query query'. rewrite Hdown, Hbad.
  split; [reflexivity|]. split; [|split].
  - exists ("error running query " ++ nl), (nl ++ cause).
    now rewrite !append_assoc.
  - exists ("error running query " ++ nl ++ query ++ nl).
    now rewrite !append_assoc.
  - apply drain_err.
Qed.

(** C9 on the scenario, with a refused connection and with a row
    that does not decode. *)
Lemma submission_error_keeps_sql_witness :
  let query :=
    createRateQuery ledgerTitleField 100 NGNT EURT "1000" "2000" "ledger" in
  RunRateQuery outage ledgerTitleField 100 NGNT EURT "1000" "2000" "ledger"
    true
  = ([], Some ("error running query " ++ nl ++ query ++ nl
               ++ "connection refused"))
  /\ contains ("error running query " ++ nl ++ query ++ nl
               ++ "connection refused") query
  /\ ends_with ("error running query " ++ nl ++ query ++ nl
                ++ "connection refused") "connection refused"
  /\ RunRateQuery outage ledgerTitleField 100 EURT NGNT "" "" "day" false
     = ([], Some "error parsing results from query: bad row").
Proof.
  exact (submission_error_keeps_sql string bool outage ledgerTitleField 100
           NGNT EURT EURT NGNT "1000" "2000" "ledger" "" "" "day"
           true false "connection refused" "bad row" ["Ledger 1"] []
           eq_refl eq_refl).
Defined.

Example decode_error_has_no_sql :
  occurrences "SELECT"
    (match snd (RunRateQuery outage ledgerTitleField 100 NGNT EURT
                  "1000" "2000" "ledger" false) with
     | Some msg => msg
     | None => ""
     end) = 0%nat
  /\ occurrences
       (createRateQuery ledgerTitleField 100 NGNT EURT "1000" "2000" "ledger")
       (match snd (RunRateQuery outage ledgerTitleField 100 NGNT EURT
                     "1000" "2000" "ledger" true) with
        | Some msg => msg
        | None => ""
        end) = 1%nat.
Proof. split; vm_compute; reflexivity. Qed.

(** C3, as stated, fails: rate.go exports one function, RunRateQuery,
    and what it runs is the order-book query.  With a warehouse that
    answers the trade query of the scenario with one row and refuses
    any other text, running the trade query gives that row, and no
    exported function does. *)
Lemma no_entry_point_runs_the_trade_query :
  execute tradeOnly
    (createRateTradeQuery ledgerTitleField 100 NGNT EURT
       "1000" "2000" "ledger") tt
  = (["Ledger 7"], None)
  /\ (forall e : EntryPoint,
        call tradeOnly ledgerTitleField 100 e NGNT EURT
          "1000" "2000" "ledger" tt
        <> execute tradeOnly
             (createRateTradeQuery ledgerTitleField 100 NGNT EURT
                "1000" "2000" "ledger") tt).
Proof.
  split; [vm_compute; reflexivity|].
  intros [] H. vm_compute in H. discriminate H.
Qed.

(** C3, amended.  The exported entry point is RunRateQuery: it builds
    the order-book query from its first five arguments, runs it on
    the client, and returns either the rows with no error or no rows
    with an error.  The trade query has a builder and no caller. *)
Theorem RunRateQuery_runs_the_orderbook_query
  (RateResult Client : Type)
  (runQuery : string -> Client -> RowIterator RateResult + string)
  (getTitleField : string -> string -> string -> string) (queryLimit : Z)
  (e : EntryPoint) (source dest : Asset)
  (startUnixTimestamp endUnixTimestamp aggregateBy : string)
  (client : Client) :
  call runQuery getTitleField queryLimit e source dest
    startUnixTimestamp endUnixTimestamp aggregateBy client
  = execute runQuery
      (createRateQuery getTitleField queryLimit source dest
         startUnixTimestamp endUnixTimestamp aggregateBy) client
  /\ ((exists rows,
         call runQuery getTitleField queryLimit e source dest
           startUnixTimestamp endUnixTimestamp aggregateBy client
         = (rows, None))
      \/ (exists msg,
            call runQuery getTitleField queryLimit e source dest
              startUnixTimestamp endUnixTimestamp aggregateBy client
            = ([], Some msg))).
Proof.
  destruct e. split; [reflexivity|].
  unfold call, RunRateQuery. cbv zeta.
  destruct (runQuery _ client) as [it|err].
  - apply drain_outcome.
  - right. eexists. reflexivity.
Qed.

(** ** Further properties of the two queries *)

Lemma midPrice_positive (b : Orderbook) (m : Q) :
  positive_prices b -> midPrice b = Some m -> (0 < m)%Q.
Proof.
  intros (Hask & Hbid). unfold midPrice.
  destruct (askPrices b) as [|ask asks]; [discriminate|].
  destruct (bidPrices b) as [|bid bids]; [discriminate|].
  cbn [hd_error]. intro H. injection H as <-.
  apply Forall_inv in Hask. apply Forall_inv in Hbid.
  apply Qlt_shift_div_l; [reflexivity|].
  rewrite Qmult_0_l.
  apply (Qplus_lt_le_compat 0 ask 0 bid Hask). now apply Qlt_le_weak.
Qed.

Lemma positive_not_zero (m : Q) : (0 < m)%Q -> Qeq_bool m 0 = false.
Proof.
  intro H. destruct (Qeq_bool m 0) eqn:E; [|reflexivity].
  apply Qeq_bool_eq in E. rewrite E in H. now apply Qlt_irrefl in H.
Qed.

(** ** ORDER BY and LIMIT *)

Lemma firstn_incl' {X : Type} (n : nat) (l : list X) (x : X) :
  In x (firstn n l) -> In x l.
Proof.
  revert l. induction n as [|n IH]; intros [|y l]; simpl; try tauto.
  intros [H | H]; [now left | right; now apply IH].
Qed.

Lemma limited_In (queryLimit : Z) (selected result : list (string * value))
  (row : string * value) :
  orderedAndLimited queryLimit selected result ->
  In row result -> In row selected.
Proof.
  intros (ordered & Hperm & _ & ->) Hin.
  apply firstn_incl' in Hin.
  apply (Permutation_in row (Permutation_sym Hperm) Hin).
Qed.

Lemma limited_all (queryLimit : Z) (selected result : list (string * value))
  (row : string * value) :
  (length selected <= Z.to_nat queryLimit)%nat ->
  orderedAndLimited queryLimit selected result ->
  In row selected -> In row result.
Proof.
  intros Hlen (ordered & Hperm & _ & ->) Hin.
  rewrite firstn_all2.
  - apply (Permutation_in row Hperm Hin).
  - now rewrite <- (Permutation_length Hperm).
Qed.

Lemma one_row_ordered (queryLimit : Z) (row : string * value) :
  (0 < queryLimit)%Z -> orderedAndLimited queryLimit [row] [row].
Proof.
  intro H. exists [row]. split; [apply Permutation_refl|]. split.
  - repeat constructor.
  - destruct (Z.to_nat queryLimit) eqn:E.
    + apply (f_equal Z.of_nat) in E.
      rewrite Z2Nat.id in E by now apply Z.lt_le_incl.
      subst queryLimit. discriminate H.
    + simpl. now rewrite firstn_nil.
Qed.

Lemma trade_row_value (source dest : Asset) (g : TradeGroup) :
  nonzero_sums g ->
  eval_cond (trade_text g) (tradeWhereC source dest) = true ->
  eval_case (trade_text g) (trade_num g) (tradeRateCase source dest)
  = Some (if asset_eqb (tg_base g) source || asset_eqb (tg_counter g) dest
          then (tg_sum_counter g / tg_sum_base g)%Q
          else (tg_sum_base g / tg_sum_counter g)%Q).
Proof.
  intros (Hsb & Hsc) Hw. unfold eval_case. rewrite select_tradeRateCase.
  rewrite eval_tradeWhereC in Hw.
  destruct (asset_eqb (tg_base g) source || asset_eqb (tg_counter g) dest).
  - rewrite eval_baseAssetSelectE. unfold v_div. now rewrite Hsb.
  - cbn [orb] in Hw. rewrite Hw, eval_counterAssetSelectE.
    unfold v_div. now rewrite Hsc.
Qed.

Lemma trade_where_legs (source dest : Asset) (g : TradeGroup) :
  eval_cond (trade_text g) (tradeWhereC source dest) = true
  <-> (tg_base g = source \/ tg_counter g = dest
       \/ tg_counter g = source \/ tg_base g = dest).
Proof.
  rewrite eval_tradeWhereC.
  destruct (asset_eqb_spec (tg_base g) source),
    (asset_eqb_spec (tg_counter g) dest),
    (asset_eqb_spec (tg_counter g) source),
    (asset_eqb_spec (tg_base g) dest); cbn; split; intro H;
    try reflexivity; try discriminate; tauto.
Qed.

Lemma orderbook_row_value (source : Asset) (b : Orderbook) (m : Q) :
  midPrice b = Some m -> (0 < m)%Q ->
  eval_case (orderbook_text b) (orderbook_num b) (orderbookRateCase source)
  = Some (if asset_eqb (ob_base b) source then m else (inject_Z 1 / m)%Q).
Proof.
  intros Hm Hlt. rewrite eval_orderbookRateCase, Hm.
  destruct (asset_eqb (ob_base b) source); [reflexivity|].
  cbn [v_inv]. now rewrite (positive_not_zero m Hlt).
Qed.

Lemma orderbook_where_market (source dest : Asset) (b : Orderbook) :
  eval_cond (orderbook_text b) (orderbookWhereC source dest) = true
  <-> ((ob_base b = source /\ ob_counter b = dest)
       \/ (ob_base b = dest /\ ob_counter b = source)).
Proof.
  rewrite eval_orderbookWhereC.
  destruct (asset_eqb_spec (ob_base b) source),
    (asset_eqb_spec (ob_counter b) dest),
    (asset_eqb_spec (ob_base b) dest),
    (asset_eqb_spec (ob_counter b) source); cbn; split; intro H;
    try reflexivity; try discriminate; tauto.
Qed.

(** X1.  Take distinct source and dest whose codes and issuers hold
    no double quote, groups with non-zero sums, and no more selected
    groups than the row limit.  Then the trade query returns every
    group of the pair itself: one stored as (source, dest) with the
    rate SUM(counter)/SUM(base), one stored as (dest, source) with
    SUM(base)/SUM(counter), as the comments above the two predicates
    describe. *)
Theorem trade_groups_of_the_pair_are_counted
  (queryLimit : Z) (source dest : Asset) (groups : list TradeGroup)
  (result : list (string * value)) (g : TradeGroup) :
  source <> dest ->
  plain source = true -> plain dest = true ->
  (forall g', In g' groups -> nonzero_sums g') ->
  (length (tradeRows source dest groups) <= Z.to_nat queryLimit)%nat ->
  orderedAndLimited queryLimit (tradeRows source dest groups) result ->
  In g groups ->
  fullOrientation source dest g = true ->
  In (tg_title g,
      Some (if asset_eqb (tg_base g) source
            then (tg_sum_counter g / tg_sum_base g)%Q
            else (tg_sum_base g / tg_sum_counter g)%Q))
     result.
Proof.
  intros Hsd _ _ Hnz Hlen Hres Hin Hfull.
  apply (limited_all queryLimit _ _ _ Hlen Hres).
  assert (Hw : eval_cond (trade_text g) (tradeWhereC source dest) = true).
  { rewrite eval_tradeWhereC. unfold fullOrientation in Hfull.
    destruct (asset_eqb (tg_base g) source), (asset_eqb (tg_counter g) dest),
      (asset_eqb (tg_counter g) source), (asset_eqb (tg_base g) dest);
      try reflexivity; discriminate. }
  unfold tradeRows. apply in_map_iff. exists g. split.
  - rewrite (trade_row_value source dest g (Hnz g Hin) Hw). do 2 f_equal.
    unfold fullOrientation in Hfull.
    destruct (asset_eqb_spec (tg_base g) source) as [Hb|Hb];
      [reflexivity|].
    destruct (asset_eqb_spec (tg_counter g) dest) as [Hc|Hc];
      [|reflexivity].
    destruct (asset_eqb_spec (tg_counter g) source) as [He|He];
      [congruence|].
    cbn in Hfull. discriminate.
  - apply filter_In. now split.
Qed.

(** X1 on the trades of NGNT for EURT of one ledger, with the limit
    of the sample queries. *)
Lemma trade_groups_of_the_pair_are_counted_witness :
  In ("Ledger 7", Some ((1 # 1) / (400 # 1))%Q)
     (tradeRows NGNT EURT [sampleGroup]).
Proof.
  assert (H1 : NGNT <> EURT) by discriminate.
  refine (trade_groups_of_the_pair_are_counted 100 NGNT EURT [sampleGroup]
            (tradeRows NGNT EURT [sampleGroup]) sampleGroup
            H1 eq_refl eq_refl _ _ _ (or_introl eq_refl) eq_refl).
  - intros g' [<- | []]. split; reflexivity.
  - vm_compute. repeat constructor.
  - apply one_row_ordered. reflexivity.
Defined.

(** X2.  Take source and dest whose codes and issuers hold no double
    quote and order books with positive prices.  Every row the
    order-book query returns comes from an order book whose market is
    (source, dest) or (dest, source) on the code and the issuer of
    both legs and that has a best ask and a best bid; its rate is the
    mid-price when the base leg is the source and its reciprocal
    otherwise.  When no more rows are selected than the row limit,
    every such order book gives a returned row. *)
Theorem orderbook_rows_are_those_of_the_pair
  (queryLimit : Z) (source dest : Asset) (books : list Orderbook)
  (result : list (string * value)) :
  plain source = true -> plain dest = true ->
  (forall b, In b books -> positive_prices b) ->
  orderedAndLimited queryLimit (orderbookRows source dest books) result ->
  (forall row,
     In row result ->
     exists b m,
       In b books
       /\ ((ob_base b = source /\ ob_counter b = dest)
           \/ (ob_base b = dest /\ ob_counter b = source))
       /\ midPrice b = Some m
       /\ row = (ob_title b,
                 Some (if asset_eqb (ob_base b) source
                       then m else (inject_Z 1 / m)%Q)))
  /\ ((length (orderbookRows source dest books) <= Z.to_nat queryLimit)%nat ->
      forall b,
        In b books ->
        ((ob_base b = source /\ ob_counter b = dest)
         \/ (ob_base b = dest /\ ob_counter b = source)) ->
        askPrices b <> [] -> bidPrices b <> [] ->
        exists m,
          midPrice b = Some m
          /\ In (ob_title b,
                 Some (if asset_eqb (ob_base b) source
                       then m else (inject_Z 1 / m)%Q))
                result).
Proof.
  intros _ _ Hpos Hres. split.
  - intros row Hin. apply (limited_In _ _ _ _ Hres) in Hin.
    unfold orderbookRows in Hin.
    apply in_map_iff in Hin as (b & <- & Hin).
    apply filter_In in Hin as (Hin & Hnull).
    apply filter_In in Hin as (Hin & Hwhere).
    rewrite eval_rateCalculationE in Hnull.
    destruct (midPrice b) as [m|] eqn:Hm; [|discriminate].
    exists b, m. split; [exact Hin|]. split; [|split; [exact Hm|]].
    + now apply orderbook_where_market.
    + f_equal. apply (orderbook_row_value source b m Hm).
      exact (midPrice_positive b m (Hpos b Hin) Hm).
  - intros Hlen b Hin Hmarket Hask Hbid.
    assert (Hm : exists m, midPrice b = Some m).
    { unfold midPrice. destruct (askPrices b); [congruence|].
      destruct (bidPrices b); [congruence|]. eexists. reflexivity. }
    destruct Hm as (m & Hm). exists m. split; [exact Hm|].
    apply (limited_all queryLimit _ _ _ Hlen Hres).
    unfold orderbookRows. apply in_map_iff. exists b. split.
    + f_equal. apply (orderbook_row_value source b m Hm).
      exact (midPrice_positive b m (Hpos b Hin) Hm).
    + apply filter_In. split.
      * apply filter_In. split; [exact Hin|].
        now apply orderbook_where_market.
      * now rewrite eval_rateCalculationE, Hm.
Qed.

(** X2 on the order book of the scenario, the one row of its query. *)
Lemma orderbook_rows_are_those_of_the_pair_witness :
  exists m,
    midPrice sampleBook = Some m
    /\ In ("Ledger 7", Some (inject_Z 1 / m)%Q)
          (orderbookRows NGNT EURT [sampleBook]).
Proof.
  assert (Hpos : forall b, In b [sampleBook] -> positive_prices b).
  { intros b [<- | []]. split; repeat constructor. }
  assert (Hres : orderedAndLimited 100
                   (orderbookRows NGNT EURT [sampleBook])
                   (orderbookRows NGNT EURT [sampleBook])).
  { apply (one_row_ordered 100). reflexivity. }
  assert (Hlen : (length (orderbookRows NGNT EURT [sampleBook])
                  <= Z.to_nat 100)%nat).
  { vm_compute. repeat constructor. }
  refine (proj2 (orderbook_rows_are_those_of_the_pair 100 NGNT EURT
                   [sampleBook] _ eq_refl eq_refl Hpos Hres)
            Hlen sampleBook (or_introl eq_refl) (or_intror (conj eq_refl eq_refl))
            _ _); discriminate.
Defined.

(** X3.  Asking for the pair in the other direction returns the same
    buckets in the same order, in both queries: the WHERE clauses of
    the two calls select the same rows. *)
Theorem swapped_call_returns_the_same_buckets
  (A B : Asset) (groups : list TradeGroup) (books : list Orderbook) :
  map fst (tradeRows A B groups) = map fst (tradeRows B A groups)
  /\ map fst (orderbookRows A B books) = map fst (orderbookRows B A books).
Proof.
  unfold tradeRows, orderbookRows. rewrite !map_map. cbn [fst]. split.
  - f_equal. apply filter_ext. intro g. rewrite !eval_tradeWhereC.
    destruct (asset_eqb (tg_base g) A), (asset_eqb (tg_counter g) B),
      (asset_eqb (tg_counter g) A), (asset_eqb (tg_base g) B); reflexivity.
  - do 2 f_equal. apply filter_ext. intro b. rewrite !eval_orderbookWhereC.
    apply orb_comm.
Qed.

(** X4.  When source and dest are the same asset the reverse reading
    is dead in both queries: the second branch of the trade CASE is
    never selected, and every rate of the order-book query is the
    mid-price itself, never its reciprocal. *)
Theorem identical_assets_only_forward
  (A : Asset) (g : TradeGroup) (books : list Orderbook) :
  select_branch (trade_text g) (tradeRateCase A A)
  = (if asset_eqb (tg_base g) A || asset_eqb (tg_counter g) A
     then Some baseAssetSelectE else None)
  /\ normalMatch A A = reverseMatch A A
  /\ orderbookRows A A books
     = map (fun b => (ob_title b, midPrice b))
         (filter (fun b => hasAsk b && hasBid b)
            (filter (fun b => asset_eqb (ob_base b) A
                              && asset_eqb (ob_counter b) A)
                    books)).
Proof.
  split; [|split].
  - rewrite select_tradeRateCase.
    destruct (asset_eqb (tg_base g) A), (asset_eqb (tg_counter g) A);
      reflexivity.
  - reflexivity.
  - unfold orderbookRows.
    rewrite (filter_ext
               (fun b => is_not_null
                           (eval_expr (orderbook_num b) rateCalculationE))
               (fun b => hasAsk b && hasBid b))
      by (intro b; now rewrite eval_rateCalculationE, midPrice_not_null).
    rewrite (filter_ext
               (fun b => eval_cond (orderbook_text b) (orderbookWhereC A A))
               (fun b => asset_eqb (ob_base b) A
                         && asset_eqb (ob_counter b) A))
      by (intro b; rewrite eval_orderbookWhereC; apply orb_diag).
    apply map_ext_in. intros b Hin.
    apply filter_In in Hin as (Hin & _).
    apply filter_In in Hin as (_ & Hm).
    apply andb_true_iff in Hm as (Hm & _).
    now rewrite eval_orderbookRateCase, Hm.
Qed.


(** X5.  When every price of every order book is positive, every row
    of the order-book query carries a rate, and the rate is positive:
    the IS NOT NULL stage leaves no NULL behind and the reciprocal is
    never taken of zero. *)
Theorem orderbook_rates_are_positive
  (source dest : Asset) (books : list Orderbook)
  (title : string) (rate : value) :
  (forall b, In b books -> positive_prices b) ->
  In (title, rate) (orderbookRows source dest books) ->
  exists q, rate = Some q /\ (0 < q)%Q.
Proof.
  intros Hpos Hin. unfold orderbookRows in Hin.
  apply in_map_iff in Hin as (b & Heq & Hin).
  apply filter_In in Hin as (Hin & Hnull).
  apply filter_In in Hin as (Hin & _).
  rewrite eval_rateCalculationE in Hnull.
  rewrite eval_orderbookRateCase in Heq. injection Heq as _ <-.
  destruct (midPrice b) as [m|] eqn:Hm; [|discriminate].
  pose proof (midPrice_positive b m (Hpos b Hin) Hm) as Hlt.
  destruct (asset_eqb (ob_base b) source).
  - now exists m.
  - cbn [v_inv]. rewrite (positive_not_zero m Hlt).
    exists (inject_Z 1 / m)%Q. split; [reflexivity|].
    apply Qlt_shift_div_l; [exact Hlt|]. now rewrite Qmult_0_l.
Qed.

(** X5 on an order book with bids at 395 and 390 and an ask at 405,
    read in the direction that takes the reciprocal. *)
Lemma orderbook_rates_are_positive_witness :
  exists q,
    Some (inject_Z 1 / (((405 # 1) + (395 # 1)) / inject_Z 2))%Q = Some q
    /\ (0 < q)%Q.
Proof.
  refine (orderbook_rates_are_positive NGNT EURT [sampleBook] "Ledger 7"
            _ _ (or_introl eq_refl)).
  intros b [<- | []]. split; repeat constructor.
Defined.

(** ** Further properties of the executor *)

Lemma drain_fails_inv (RateResult : Type) (it : RowIterator RateResult)
  (results : list RateResult) (msg : string) :
  snd (drain it results) = Some msg ->
  exists rows err rest,
    it = (map NextRow rows ++ NextErr err :: rest)%list
    /\ msg = "error parsing results from query: " ++ err.
Proof.
  revert results. induction it as [|n it IH]; intro results; simpl.
  - discriminate.
  - destruct n as [res| |err]; simpl.
    + intro H. destruct (IH _ H) as (rows & err & rest & -> & ->).
      now exists (res :: rows), err, rest.
    + discriminate.
    + intro H. injection H as <-. now exists [], err, it.
Qed.

(** X6.  RunRateQuery returns an error in two cases and no other: the
    submission failed, and the message is the one that quotes the
    query; or a row failed to decode before the iterator reported
    Done, and the message is the one that names the decoding.  An
    error that the iterator would report after Done is never seen. *)
Theorem RunRateQuery_fails_exactly_when
  (RateResult Client : Type)
  (runQuery : string -> Client -> RowIterator RateResult + string)
  (getTitleField : string -> string -> string -> string) (queryLimit : Z)
  (source dest : Asset)
  (startUnixTimestamp endUnixTimestamp aggregateBy : string)
  (client : Client) (msg : string) :
  let query :=
    createRateQuery getTitleField queryLimit source dest
      startUnixTimestamp endUnixTimestamp aggregateBy in
  snd (RunRateQuery runQuery getTitleField queryLimit source dest
         startUnixTimestamp endUnixTimestamp aggregateBy client)
  = Some msg
  <-> (exists cause,
         runQuery query client = inr cause
         /\ msg = "error running query " ++ nl ++ query ++ nl ++ cause)
      \/ (exists rows err rest,
            runQuery query client
            = inl (map NextRow rows ++ NextErr err :: rest)%list
            /\ msg = "error parsing results from query: " ++ err).
Proof.
  intro query. unfold RunRateQuery. cbv zeta. fold query.
  destruct (runQuery query client) as [it|cause]; split.
  - intro H. right.
    destruct (drain_fails_inv _ it [] msg H) as (rows & err & rest & -> & ->).
    now exists rows, err, rest.
  - intros [(cause & Hc & _) | (rows & err & rest & Hit & ->)];
      [discriminate|].
    injection Hit as ->. now rewrite drain_err.
  - intro H. left. exists cause. split; [reflexivity|].
    simpl in H. now injection H as <-.
  - intros [(c & Hc & ->) | (rows & err & rest & Hit & _)];
      [|discriminate].
    now injection Hc as ->.
Qed.

(** ** The text of a query and the pair it was built for *)

Lemma append_inv_head (a b c : string) : a ++ b = a ++ c -> b = c.
Proof.
  induction a as [|x a IH]; simpl; intro H; [exact H|].
  injection H as H. now apply IH.
Qed.

Lemma field_inj (a a' r r' : string) :
  quote_free a = true -> quote_free a' = true ->
  quoted a ++ r = quoted a' ++ r' -> a = a' /\ r = r'.
Proof.
  unfold quoted. rewrite !append_assoc. cbn [dq append].
  intros Ha Ha' H. injection H as H.
  revert a' Ha Ha' H. induction a as [|c a IH]; intros [|c' a'] Ha Ha' H;
    cbn [append] in H.
  - injection H as H. now split.
  - injection H as Hc _. subst c'. cbn in Ha'. discriminate.
  - injection H as Hc _. subst c. cbn in Ha. discriminate.
  - injection H as -> H. cbn [quote_free] in Ha, Ha'.
    apply andb_true_iff in Ha as (_ & Ha).
    apply andb_true_iff in Ha' as (_ & Ha').
    destruct (IH a' Ha Ha' H) as (-> & ->). now split.
Qed.

Ltac peel H := apply append_inv_head in H.
Ltac unquote H :=
  let E := fresh "E" in
  apply field_inj in H as (E & H); [| assumption | assumption].

Lemma plain_fields (a : Asset) :
  plain a = true ->
  quote_free (Code a) = true /\ quote_free (Issuer a) = true.
Proof. unfold plain. apply andb_true_iff. Qed.

Lemma baseAssetMatch_inj (s d s' d' : Asset) (r r' : string) :
  plain s = true -> plain d = true -> plain s' = true -> plain d' = true ->
  baseAssetMatch s d ++ r = baseAssetMatch s' d' ++ r' ->
  s = s' /\ d = d'.
Proof.
  intros Hs Hd Hs' Hd' H.
  apply plain_fields in Hs as (? & ?). apply plain_fields in Hd as (? & ?).
  apply plain_fields in Hs' as (? & ?). apply plain_fields in Hd' as (? & ?).
  destruct s as [cs ns], d as [cd nd], s' as [cs' ns'], d' as [cd' nd'].
  cbn [Code Issuer] in *. unfold baseAssetMatch in H. cbn [Code Issuer] in H.
  rewrite !append_assoc in H.
  peel H. unquote H. peel H. unquote H. peel H. unquote H. peel H. unquote H.
  now subst.
Qed.

Lemma normalMatch_inj (s d s' d' : Asset) (r r' : string) :
  plain s = true -> plain d = true -> plain s' = true -> plain d' = true ->
  normalMatch s d ++ r = normalMatch s' d' ++ r' ->
  s = s' /\ d = d'.
Proof.
  intros Hs Hd Hs' Hd' H.
  apply plain_fields in Hs as (? & ?). apply plain_fields in Hd as (? & ?).
  apply plain_fields in Hs' as (? & ?). apply plain_fields in Hd' as (? & ?).
  destruct s as [cs ns], d as [cd nd], s' as [cs' ns'], d' as [cd' nd'].
  cbn [Code Issuer] in *. unfold normalMatch in H. cbn [Code Issuer] in H.
  rewrite !append_assoc in H.
  peel H. unquote H. peel H. unquote H. peel H. unquote H. peel H. unquote H.
  now subst.
Qed.

(** X7.  For codes and issuers that hold no double quote, the text of
    a query determines the pair it was built for: two different
    (source, dest) pairs never give the same trade query, nor the same
    order-book query, whatever the bounds, the aggregation, the title
    formatter and the row limit. *)
Theorem distinct_pairs_give_distinct_queries
  (getTitleField : string -> string -> string -> string) (queryLimit : Z)
  (source dest source' dest' : Asset)
  (startUnixTimestamp endUnixTimestamp aggregateBy : string) :
  plain source = true -> plain dest = true ->
  plain source' = true -> plain dest' = true ->
  (source, dest) <> (source', dest') ->
  createRateTradeQuery getTitleField queryLimit source dest
    startUnixTimestamp endUnixTimestamp aggregateBy
  <> createRateTradeQuery getTitleField queryLimit source' dest'
       startUnixTimestamp endUnixTimestamp aggregateBy
  /\ createRateQuery getTitleField queryLimit source dest
       startUnixTimestamp endUnixTimestamp aggregateBy
     <> createRateQuery getTitleField queryLimit source' dest'
          startUnixTimestamp endUnixTimestamp aggregateBy.
Proof.
  intros Hs Hd Hs' Hd' Hne. split; intro H; apply Hne.
  - rewrite !createRateTradeQuery_shape, !render_tradeRateCase in H.
    rewrite !append_assoc in H.
    peel H. peel H. peel H. peel H.
    destruct (baseAssetMatch_inj _ _ _ _ _ _ Hs Hd Hs' Hd' H) as (-> & ->).
    reflexivity.
  - rewrite !createRateQuery_shape in H.
    change (render_cond (orderbookWhereC source dest))
      with ("(" ++ (render_cond (normalMatchC source dest) ++ " OR "
            ++ render_cond (reverseMatchC source dest)) ++ ")") in H.
    change (render_cond (orderbookWhereC source' dest'))
      with ("(" ++ (render_cond (normalMatchC source' dest') ++ " OR "
            ++ render_cond (reverseMatchC source' dest')) ++ ")") in H.
    rewrite !render_normalMatchC in H.
    rewrite !append_assoc in H.
    peel H. peel H. peel H.
    destruct (normalMatch_inj _ _ _ _ _ _ Hs Hd Hs' Hd' H) as (-> & ->).
    reflexivity.
Qed.

(** X7 on the scenario and the same pair in the other direction. *)
Lemma distinct_pairs_give_distinct_queries_witness :
  createRateTradeQuery ledgerTitleField 100 NGNT EURT "1000" "2000" "ledger"
  <> createRateTradeQuery ledgerTitleField 100 EURT NGNT
       "1000" "2000" "ledger"
  /\ createRateQuery ledgerTitleField 100 NGNT EURT "1000" "2000" "ledger"
     <> createRateQuery ledgerTitleField 100 EURT NGNT
          "1000" "2000" "ledger".
Proof.
  refine (distinct_pairs_give_distinct_queries ledgerTitleField 100
            NGNT EURT EURT NGNT "1000" "2000" "ledger"
            eq_refl eq_refl eq_refl eq_refl _).
  discriminate.
Defined.

Lemma eqb_append_longer (a : string) (c : ascii) (r : string) :
  (a =? a ++ String c r) = false.
Proof.
  apply String.eqb_neq. intro H.
  apply (f_equal String.length) in H. revert H.
  induction a as [|x a IH]; simpl; intro H; [discriminate|].
  injection H as H. now apply IH.
Qed.

(** X8.  A double quote in a code is copied into the text as it is.
    For a source code made of [a], a double quote, the words
    OR B.asset_code= and a quoted [b], the forward predicate the trade
    builder prints is also the printed form of a condition with one
    more alternative, base code = [a] with no test of the issuer: that
    condition holds on every group whose base code is [a], while the
    condition that compares the whole code as one literal holds on
    such a group only through its counter leg. *)
Theorem unescaped_quote_widens_the_match
  (a b issuer : string) (dest : Asset)
  (title anyIssuer : string) (counter : Asset) (sumBase sumCounter : Q) :
  let crafted :=
    mkAsset (a ++ dq ++ " OR B.asset_code=" ++ dq ++ b) issuer in
  let widened :=
    CParen
      (COr (CParen (COr (CEq "B.asset_code" a)
                        (legIs "B.asset_code" "B.asset_issuer"
                           (mkAsset b issuer))))
           (CParen (legIs "C.asset_code" "C.asset_issuer" dest))) in
  let g :=
    mkTradeGroup title (mkAsset a anyIssuer) counter sumBase sumCounter in
  baseAssetMatch crafted dest = render_cond widened
  /\ render_cond (baseAssetMatchC crafted dest) = render_cond widened
  /\ eval_cond (trade_text g) widened = true
  /\ eval_cond (trade_text g) (baseAssetMatchC crafted dest)
     = asset_eqb counter dest.
Proof.
  cbv zeta. split; [|split; [|split]].
  - unfold baseAssetMatch. cbn [Code Issuer render_cond legIs]. flatten.
  - rewrite render_baseAssetMatchC.
    unfold baseAssetMatch. cbn [Code Issuer render_cond legIs]. flatten.
  - cbn. now rewrite String.eqb_refl.
  - rewrite eval_baseAssetMatchC. unfold asset_eqb at 1.
    cbn [tg_base tg_counter Code Issuer dq append].
    now rewrite eqb_append_longer.
Qed.

(** X9.  What the trade query returns, as the code has it.  Take
    source and dest whose codes and issuers hold no double quote and
    groups with non-zero sums.  Every row returned comes from a group
    for which one of four single-leg tests holds (its base leg is the
    source, its counter leg is the dest, its counter leg is the
    source, or its base leg is the dest), so possibly from a group
    whose other leg is a third asset; its rate is
    SUM(counter)/SUM(base) when one of the first two tests holds and
    SUM(base)/SUM(counter) otherwise.  When no more groups are
    selected than the row limit, every such group gives a returned
    row. *)
Theorem trade_rows_are_single_leg_matches
  (queryLimit : Z) (source dest : Asset) (groups : list TradeGroup)
  (result : list (string * value)) :
  plain source = true -> plain dest = true ->
  (forall g, In g groups -> nonzero_sums g) ->
  orderedAndLimited queryLimit (tradeRows source dest groups) result ->
  (forall row,
     In row result ->
     exists g,
       In g groups
       /\ (tg_base g = source \/ tg_counter g = dest
           \/ tg_counter g = source \/ tg_base g = dest)
       /\ row = (tg_title g,
                 Some (if asset_eqb (tg_base g) source
                          || asset_eqb (tg_counter g) dest
                       then (tg_sum_counter g / tg_sum_base g)%Q
                       else (tg_sum_base g / tg_sum_counter g)%Q)))
  /\ ((length (tradeRows source dest groups) <= Z.to_nat queryLimit)%nat ->
      forall g,
        In g groups ->
        (tg_base g = source \/ tg_counter g = dest
         \/ tg_counter g = source \/ tg_base g = dest) ->
        In (tg_title g,
            Some (if asset_eqb (tg_base g) source
                     || asset_eqb (tg_counter g) dest
                  then (tg_sum_counter g / tg_sum_base g)%Q
                  else (tg_sum_base g / tg_sum_counter g)%Q))
           result).
Proof.
  intros _ _ Hnz Hres. split.
  - intros row Hin. apply (limited_In _ _ _ _ Hres) in Hin.
    unfold tradeRows in Hin. apply in_map_iff in Hin as (g & <- & Hin).
    apply filter_In in Hin as (Hin & Hw).
    exists g. split; [exact Hin|]. split; [now apply trade_where_legs|].
    now rewrite (trade_row_value source dest g (Hnz g Hin) Hw).
  - intros Hlen g Hin Hlegs. apply trade_where_legs in Hlegs.
    apply (limited_all queryLimit _ _ _ Hlen Hres).
    unfold tradeRows. apply in_map_iff. exists g. split.
    + now rewrite (trade_row_value source dest g (Hnz g Hin) Hlegs).
    + apply filter_In. now split.
Qed.

(** X9 on a group of trades of NGNT against a third asset, asked for
    NGNT to EURT: it is returned, with the quotient of its sums. *)
Lemma trade_rows_are_single_leg_matches_witness :
  In ("Ledger 7", Some ((5 # 1) / (10 # 1))%Q)
     (tradeRows NGNT EURT
        [mkTradeGroup "Ledger 7" NGNT USDT (10 # 1) (5 # 1)]).
Proof.
  pose (g := mkTradeGroup "Ledger 7" NGNT USDT (10 # 1) (5 # 1)).
  assert (Hnz : forall g', In g' [g] -> nonzero_sums g').
  { intros g' [<- | []]. split; reflexivity. }
  assert (Hres : orderedAndLimited 100 (tradeRows NGNT EURT [g])
                   (tradeRows NGNT EURT [g])).
  { apply (one_row_ordered 100). reflexivity. }
  assert (Hlen : (length (tradeRows NGNT EURT [g]) <= Z.to_nat 100)%nat).
  { vm_compute. repeat constructor. }
  exact (proj2 (trade_rows_are_single_leg_matches 100 NGNT EURT [g] _
                  eq_refl eq_refl Hnz Hres)
           Hlen g (or_introl eq_refl) (or_introl eq_refl)).
Defined.

(** X10.  Take distinct assets whose codes and issuers hold no double
    quote and order books with positive prices.  For every row the
    order-book query returns in one direction, the query in the other
    direction selects, before its own ORDER BY and LIMIT, a row with
    the same title; both rates are there, and their product is one. *)
Theorem swapped_orderbook_rates_are_reciprocal
  (queryLimit : Z) (A B : Asset) (books : list Orderbook)
  (result : list (string * value)) (title : string) (rate : value) :
  A <> B ->
  plain A = true -> plain B = true ->
  (forall b, In b books -> positive_prices b) ->
  orderedAndLimited queryLimit (orderbookRows A B books) result ->
  In (title, rate) result ->
  exists r r',
    rate = Some r
    /\ In (title, Some r') (orderbookRows B A books)
    /\ (r * r' == 1)%Q.
Proof.
  intros HAB _ _ Hpos Hres Hin.
  apply (limited_In _ _ _ _ Hres) in Hin. unfold orderbookRows in Hin.
  apply in_map_iff in Hin as (b & Heq & Hin).
  apply filter_In in Hin as (Hin & Hnull).
  apply filter_In in Hin as (Hin & Hwhere).
  rewrite eval_rateCalculationE in Hnull.
  destruct (midPrice b) as [m|] eqn:Hm; [|discriminate].
  pose proof (midPrice_positive b m (Hpos b Hin) Hm) as Hlt.
  assert (Hmne : ~ (m == 0)%Q).
  { intro E. rewrite E in Hlt. now apply Qlt_irrefl in Hlt. }
  rewrite (orderbook_row_value A b m Hm Hlt) in Heq.
  injection Heq as <- <-.
  assert (Hswap : In (ob_title b,
                      Some (if asset_eqb (ob_base b) B
                            then m else (inject_Z 1 / m)%Q))
                     (orderbookRows B A books)).
  { unfold orderbookRows. apply in_map_iff. exists b. split.
    - f_equal. apply (orderbook_row_value B b m Hm Hlt).
    - apply filter_In. split.
      + apply filter_In. split; [exact Hin|].
        rewrite eval_orderbookWhereC in Hwhere |- *.
        now rewrite orb_comm.
      + now rewrite eval_rateCalculationE, Hm. }
  rewrite eval_orderbookWhereC in Hwhere.
  destruct (asset_eqb_spec (ob_base b) A) as [Ha|Ha],
    (asset_eqb_spec (ob_base b) B) as [Hb|Hb].
  - congruence.
  - exists m, (inject_Z 1 / m)%Q. repeat split; [exact Hswap|].
    field. exact Hmne.
  - exists (inject_Z 1 / m)%Q, m. repeat split; [exact Hswap|].
    field. exact Hmne.
  - cbn in Hwhere. discriminate.
Qed.

(** X10 on the order book of the scenario: 1/400 one way, 400 the
    other. *)
Lemma swapped_orderbook_rates_are_reciprocal_witness :
  exists r r',
    Some (inject_Z 1 / (((405 # 1) + (395 # 1)) / inject_Z 2))%Q = Some r
    /\ In ("Ledger 7", Some r') (orderbookRows EURT NGNT [sampleBook])
    /\ (r * r' == 1)%Q.
Proof.
  refine (swapped_orderbook_rates_are_reciprocal 100 NGNT EURT [sampleBook]
            (orderbookRows NGNT EURT [sampleBook]) "Ledger 7" _
            _ eq_refl eq_refl _ _ (or_introl eq_refl)).
  - discriminate.
  - intros b [<- | []]. split; repeat constructor.
  - apply (one_row_ordered 100). reflexivity.
Defined.
